(** * claude-hyper-agents: the MCP task/project server

    A shallow embedding of [src/mcp/src/db/supabase.ts] (the slug helper,
    [handleError], [logActivity]) and of the tool handlers registered in
    [src/mcp/src/index.ts], followed by the properties the specification
    states about them.

    Conventions of the embedding.
    - A JavaScript string is the list of its UTF-16 code units ([list N]).
    - [String.prototype.toLowerCase] is a parameter of the development
      (full Unicode case mapping is not re-implemented); [asciiLower] is
      the instance that is exact on ASCII input.
    - The Supabase store is a record of tables.  Every store call takes the
      fault the store may answer with ([None] = the call goes through), so
      a handler is a function from the store to the new store and either a
      returned value or a thrown exception.  The store is returned in both
      cases: nothing is rolled back by a throw.
    - Values the environment chooses (the clock, the ids the store assigns
      to new rows, the faults) are gathered in [Env]. *)

From Stdlib Require Import String Ascii NArith ZArith List Lia.
From stdpp Require Import base option list gmap sorting.

Local Open Scope N_scope.

(** ** JavaScript strings *)

Abbreviation jsstring := (list N).

Definition str (s : string) : jsstring :=
  (λ a, N_of_ascii a) <$> list_ascii_of_string s.
Arguments str s%_string.

(** A string is truthy when it is not empty. *)
Definition truthy (s : jsstring) : bool :=
  match s with [] => false | _ :: _ => true end.

(** [opt ?? dflt] *)
Definition nullish {A} (o : option A) (dflt : A) : A :=
  match o with Some a => a | None => dflt end.
Infix "??" := nullish (at level 45, left associativity).

(** ** Character classes of the regular expressions in [generateSlug] *)

Definition hyphen : N := 45.

Definition is_lower_az (c : N) : bool := (97 <=? c) && (c <=? 122).
Definition is_digit (c : N) : bool := (48 <=? c) && (c <=? 57).
Definition is_hyphen (c : N) : bool := c =? hyphen.

(** [\s]: tab, LF, VT, FF, CR, space, U+00A0, U+1680, U+2000..U+200A,
    U+2028, U+2029, U+202F, U+205F, U+3000, U+FEFF.  [trim] strips the
    same set (WhiteSpace and LineTerminator). *)
Definition is_space (c : N) : bool :=
  ((9 <=? c) && (c <=? 13)) || (c =? 32) || (c =? 160) || (c =? 5760)
  || ((8192 <=? c) && (c <=? 8202)) || (c =? 8232) || (c =? 8233)
  || (c =? 8239) || (c =? 8287) || (c =? 12288) || (c =? 65279).

(** The class [[a-z0-9\s-]]; its complement is what the first replace
    deletes. *)
Definition in_kept_class (c : N) : bool :=
  is_lower_az c || is_digit c || is_space c || is_hyphen c.

(** [[a-z0-9-]] *)
Definition is_slug_unit (c : N) : bool :=
  is_lower_az c || is_digit c || is_hyphen c.

(** [s.replace(/[^a-z0-9\s-]/g, '')] *)
Definition remove_outside_class (s : jsstring) : jsstring :=
  List.filter in_kept_class s.

(** [s.replace(/p+/g, by)] for a one-character class [p]: every maximal
    run of [p] becomes the single unit [by].  [in_run] tells that the
    previous unit belonged to the run being replaced. *)
Fixpoint replace_runs (p : N → bool) (by_ : N) (in_run : bool) (s : jsstring)
  : jsstring :=
  match s with
  | [] => []
  | c :: r =>
      if p c
      then (if in_run then replace_runs p by_ true r
            else by_ :: replace_runs p by_ true r)
      else c :: replace_runs p by_ false r
  end.

Fixpoint dropWhile (p : N → bool) (s : jsstring) : jsstring :=
  match s with
  | [] => []
  | c :: r => if p c then dropWhile p r else s
  end.

Definition trimStart (s : jsstring) : jsstring := dropWhile is_space s.
Definition trimEnd (s : jsstring) : jsstring := rev (dropWhile is_space (rev s)).
(** [s.trim()]: strips white space, and only white space, at both ends. *)
Definition trim (s : jsstring) : jsstring := trimEnd (trimStart s).

(** Lower-casing of the ASCII letters, other units unchanged: what
    [toLowerCase] does on an ASCII string. *)
Definition lower_unit (c : N) : N :=
  if (65 <=? c) && (c <=? 90) then c + 32 else c.
Definition asciiLower (s : jsstring) : jsstring := lower_unit <$> s.

Local Close Scope N_scope.

(** ** Enumerations (supabase.ts, DATABASE TYPES) *)

Inductive ProjectStatus := planning | active | paused | completed | archived.
Inductive TaskStatus := backlog | todo | in_progress | review | blocked | done.
Inductive PriorityLevel := critical | high | medium | low.

Global Instance ProjectStatus_eq_dec : EqDecision ProjectStatus.
Proof. solve_decision. Defined.
Global Instance TaskStatus_eq_dec : EqDecision TaskStatus.
Proof. solve_decision. Defined.
Global Instance PriorityLevel_eq_dec : EqDecision PriorityLevel.
Proof. solve_decision. Defined.

(** The string a status is at run time; used for [`task_${status}`] and
    as the key of the dashboard's [by_status] object. *)
Definition TaskStatus_name (s : TaskStatus) : jsstring :=
  match s with
  | backlog => str "backlog" | todo => str "todo"
  | in_progress => str "in_progress" | review => str "review"
  | blocked => str "blocked" | done => str "done"
  end.

Definition ProjectStatus_name (s : ProjectStatus) : jsstring :=
  match s with
  | planning => str "planning" | active => str "active"
  | paused => str "paused" | completed => str "completed"
  | archived => str "archived"
  end.

(** Point in time; [new Date().toISOString()] and the store's [now()]
    are read from the environment's clock. *)
Abbreviation timestamp := Z.

(** Hours columns; the handlers only copy these values. *)
Abbreviation number := Z.

(** [Record<string, unknown>] and [unknown[]] payloads. *)
#[warnings="-register-all"] Inductive Json :=
| JNull
| JBool (b : bool)
| JNum (n : number)
| JStr (s : jsstring)
| JArr (items : list Json)
| JObj (fields : list (jsstring * Json)).

(** An object literal; a property whose value is [undefined] is not
    serialised. *)
Definition object (fields : list (jsstring * option Json)) : Json :=
  JObj (omap (λ kv, match kv.2 with Some v => Some (kv.1, v) | None => None end)
          fields).

(** ** Table rows (supabase.ts, TABLE INTERFACES) *)

Module Project.
Record t := mk {
  id : jsstring;
  name : jsstring;
  slug : jsstring;
  description : option jsstring;
  status : ProjectStatus;
  template : option jsstring;
  tech_stack : Json;
  settings : Json;
  metadata : Json;
  created_at : timestamp;
  updated_at : timestamp;
}.

(** [updateData] of [ha_project_update]: the columns a handler may
    assign; [None] = property not set. *)
Record Update := mkUpdate {
  u_name : option jsstring;
  u_slug : option jsstring;
  u_description : option jsstring;
  u_status : option ProjectStatus;
  u_settings : option Json;
}.

Definition no_update : Update := mkUpdate None None None None None.

Definition set_name v (u : Update) :=
  mkUpdate (Some v) (u_slug u) (u_description u) (u_status u) (u_settings u).
Definition set_slug v (u : Update) :=
  mkUpdate (u_name u) (Some v) (u_description u) (u_status u) (u_settings u).
Definition set_description v (u : Update) :=
  mkUpdate (u_name u) (u_slug u) (Some v) (u_status u) (u_settings u).
Definition set_status v (u : Update) :=
  mkUpdate (u_name u) (u_slug u) (u_description u) (Some v) (u_settings u).
Definition set_settings v (u : Update) :=
  mkUpdate (u_name u) (u_slug u) (u_description u) (u_status u) (Some v).

(** What the store does with [update(updateData)] on one row. *)
Definition apply (u : Update) (p : t) : t :=
  {| id := id p;
     name := u_name u ?? name p;
     slug := u_slug u ?? slug p;
     description :=
       match u_description u with Some d => Some d | None => description p end;
     status := u_status u ?? status p;
     template := template p;
     tech_stack := tech_stack p;
     settings := u_settings u ?? settings p;
     metadata := metadata p;
     created_at := created_at p;
     updated_at := updated_at p |}.
End Project.

Module Task.
Record t := mk {
  id : jsstring;
  project_id : jsstring;
  roadmap_id : option jsstring;
  parent_id : option jsstring;
  title : jsstring;
  description : option jsstring;
  status : TaskStatus;
  priority : PriorityLevel;
  assigned_team : option jsstring;
  assigned_agent : option jsstring;
  estimated_hours : option number;
  actual_hours : option number;
  due_date : option timestamp;
  started_at : option timestamp;
  completed_at : option timestamp;
  blocked_by : option (list jsstring);
  blocker_reason : option jsstring;
  deliverable_path : option jsstring;
  deliverables : list Json;
  tags : list jsstring;
  metadata : Json;
  created_by : option jsstring;
  updated_by : option jsstring;
  created_at : timestamp;
  updated_at : timestamp;
}.

(** [updateData] of the task handlers.  [None] = property not set; for
    a nullable column the assigned value is itself an option, so
    [Some None] is the assignment of [null]. *)
Record Update := mkUpdate {
  u_title : option jsstring;
  u_description : option (option jsstring);
  u_status : option TaskStatus;
  u_priority : option PriorityLevel;
  u_assigned_team : option (option jsstring);
  u_assigned_agent : option (option jsstring);
  u_estimated_hours : option (option number);
  u_actual_hours : option (option number);
  u_started_at : option (option timestamp);
  u_completed_at : option (option timestamp);
  u_blocker_reason : option (option jsstring);
  u_updated_by : option (option jsstring);
}.

Definition no_update : Update :=
  mkUpdate None None None None None None None None None None None None.

Definition set_title v (u : Update) :=
  mkUpdate (Some v) (u_description u) (u_status u) (u_priority u)
    (u_assigned_team u) (u_assigned_agent u) (u_estimated_hours u)
    (u_actual_hours u) (u_started_at u) (u_completed_at u)
    (u_blocker_reason u) (u_updated_by u).
Definition set_description v (u : Update) :=
  mkUpdate (u_title u) (Some v) (u_status u) (u_priority u)
    (u_assigned_team u) (u_assigned_agent u) (u_estimated_hours u)
    (u_actual_hours u) (u_started_at u) (u_completed_at u)
    (u_blocker_reason u) (u_updated_by u).
Definition set_status v (u : Update) :=
  mkUpdate (u_title u) (u_description u) (Some v) (u_priority u)
    (u_assigned_team u) (u_assigned_agent u) (u_estimated_hours u)
    (u_actual_hours u) (u_started_at u) (u_completed_at u)
    (u_blocker_reason u) (u_updated_by u).
Definition set_priority v (u : Update) :=
  mkUpdate (u_title u) (u_description u) (u_status u) (Some v)
    (u_assigned_team u) (u_assigned_agent u) (u_estimated_hours u)
    (u_actual_hours u) (u_started_at u) (u_completed_at u)
    (u_blocker_reason u) (u_updated_by u).
Definition set_assigned_team v (u : Update) :=
  mkUpdate (u_title u) (u_description u) (u_status u) (u_priority u)
    (Some v) (u_assigned_agent u) (u_estimated_hours u)
    (u_actual_hours u) (u_started_at u) (u_completed_at u)
    (u_blocker_reason u) (u_updated_by u).
Definition set_assigned_agent v (u : Update) :=
  mkUpdate (u_title u) (u_description u) (u_status u) (u_priority u)
    (u_assigned_team u) (Some v) (u_estimated_hours u)
    (u_actual_hours u) (u_started_at u) (u_completed_at u)
    (u_blocker_reason u) (u_updated_by u).
Definition set_estimated_hours v (u : Update) :=
  mkUpdate (u_title u) (u_description u) (u_status u) (u_priority u)
    (u_assigned_team u) (u_assigned_agent u) (Some v)
    (u_actual_hours u) (u_started_at u) (u_completed_at u)
    (u_blocker_reason u) (u_updated_by u).
Definition set_actual_hours v (u : Update) :=
  mkUpdate (u_title u) (u_description u) (u_status u) (u_priority u)
    (u_assigned_team u) (u_assigned_agent u) (u_estimated_hours u)
    (Some v) (u_started_at u) (u_completed_at u)
    (u_blocker_reason u) (u_updated_by u).
Definition set_started_at v (u : Update) :=
  mkUpdate (u_title u) (u_description u) (u_status u) (u_priority u)
    (u_assigned_team u) (u_assigned_agent u) (u_estimated_hours u)
    (u_actual_hours u) (Some v) (u_completed_at u)
    (u_blocker_reason u) (u_updated_by u).
Definition set_completed_at v (u : Update) :=
  mkUpdate (u_title u) (u_description u) (u_status u) (u_priority u)
    (u_assigned_team u) (u_assigned_agent u) (u_estimated_hours u)
    (u_actual_hours u) (u_started_at u) (Some v)
    (u_blocker_reason u) (u_updated_by u).
Definition set_blocker_reason v (u : Update) :=
  mkUpdate (u_title u) (u_description u) (u_status u) (u_priority u)
    (u_assigned_team u) (u_assigned_agent u) (u_estimated_hours u)
    (u_actual_hours u) (u_started_at u) (u_completed_at u)
    (Some v) (u_updated_by u).
Definition set_updated_by v (u : Update) :=
  mkUpdate (u_title u) (u_description u) (u_status u) (u_priority u)
    (u_assigned_team u) (u_assigned_agent u) (u_estimated_hours u)
    (u_actual_hours u) (u_started_at u) (u_completed_at u)
    (u_blocker_reason u) (Some v).

(** What the store does with [update(updateData)] on one row: the
    assigned columns take the new value, every other column keeps
    its own. *)
Definition apply (u : Update) (k : t) : t :=
  {| id := id k;
     project_id := project_id k;
     roadmap_id := roadmap_id k;
     parent_id := parent_id k;
     title := u_title u ?? title k;
     description := u_description u ?? description k;
     status := u_status u ?? status k;
     priority := u_priority u ?? priority k;
     assigned_team := u_assigned_team u ?? assigned_team k;
     assigned_agent := u_assigned_agent u ?? assigned_agent k;
     estimated_hours := u_estimated_hours u ?? estimated_hours k;
     actual_hours := u_actual_hours u ?? actual_hours k;
     due_date := due_date k;
     started_at := u_started_at u ?? started_at k;
     completed_at := u_completed_at u ?? completed_at k;
     blocked_by := blocked_by k;
     blocker_reason := u_blocker_reason u ?? blocker_reason k;
     deliverable_path := deliverable_path k;
     deliverables := deliverables k;
     tags := tags k;
     metadata := metadata k;
     created_by := created_by k;
     updated_by := u_updated_by u ?? updated_by k;
     created_at := created_at k;
     updated_at := updated_at k |}.
End Task.

Module ActivityLog.
Record t := mk {
  id : jsstring;
  project_id : option jsstring;
  team : option jsstring;
  agent : jsstring;
  action : jsstring;
  details : Json;
  related_id : option jsstring;
  related_type : option jsstring;
  created_at : timestamp;
}.
End ActivityLog.

(** ** The store and the client's answers *)

Record Store := mkStore {
  projects : gmap jsstring Project.t;
  tasks : gmap jsstring Task.t;
  activity_log : list ActivityLog.t;   (* in order of insertion *)
}.

Definition with_projects (v : gmap jsstring Project.t) (st : Store) : Store :=
  mkStore v (tasks st) (activity_log st).
Definition with_tasks (v : gmap jsstring Task.t) (st : Store) : Store :=
  mkStore (projects st) v (activity_log st).
Definition with_activity_log (v : list ActivityLog.t) (st : Store) : Store :=
  mkStore (projects st) (tasks st) v.

(** The [error] member of a client answer (a PostgrestError). *)
Record StoreError := mkStoreError {
  message : jsstring;
  code : jsstring;
}.

(** [{ data, error }] *)
Record Response (A : Type) := mkResponse {
  data : option A;
  error : option StoreError;
}.
Arguments mkResponse {A}.
Arguments data {A}.
Arguments error {A}.

Definition ok {A} (a : A) : Response A := mkResponse (Some a) None.
Definition failed {A} (e : StoreError) : Response A := mkResponse None (Some e).

(** [.single()] on a result that is not exactly one row. *)
Definition no_rows : StoreError :=
  mkStoreError (str "JSON object requested, multiple (or no) rows returned")
    (str "PGRST116").

(** Insert of a row whose primary key is taken. *)
Definition unique_violation : StoreError :=
  mkStoreError (str "duplicate key value violates unique constraint")
    (str "23505").

(** What a handler can throw. *)
Inductive Exception :=
| Error_ (msg : jsstring)           (* [new Error(msg)] *)
| StoreFault (e : StoreError)       (* a store error object thrown as it is *)
| TypeError_.                       (* property read on [null] *)

Inductive Outcome (A : Type) :=
| Returned (a : A)
| Threw (e : Exception).
Arguments Returned {A}.
Arguments Threw {A}.

(** A computation against the store.  The store comes back whether the
    computation returns or throws. *)
Definition M (A : Type) : Type := Store → Store * Outcome A.

Definition ret {A} (a : A) : M A := λ st, (st, Returned a).
Definition throw {A} (e : Exception) : M A := λ st, (st, Threw e).
Definition bind {A B} (m : M A) (k : A → M B) : M B :=
  λ st, match m st with
        | (st', Returned a) => k a st'
        | (st', Threw e) => (st', Threw e)
        end.

Notation "x <- m ;; k" := (bind m (λ x, k))
  (at level 100, m at next level, right associativity).

(** Read of a member of [data] after the error check. *)
Definition non_null {A} (o : option A) : M A :=
  match o with Some a => ret a | None => throw TypeError_ end.

(** What the environment decides during one call of a handler. *)
Record Env := mkEnv {
  now : timestamp;                    (* the clock *)
  new_id : jsstring;                  (* id the store assigns to an inserted entity row *)
  log_id : jsstring;                  (* id the store assigns to the activity row *)
  entity_fault : option StoreError;   (* answer to the handler's own query *)
  log_fault : option StoreError;      (* answer to the insert into activity_log *)
}.

(** *** Store calls *)

(** [from('projects').insert(row).select().single()] *)
Definition insert_project (fault : option StoreError) (row : Project.t)
  : M (Response Project.t) := λ st,
  match fault with
  | Some e => (st, Returned (failed e))
  | None =>
      match projects st !! Project.id row with
      | Some _ => (st, Returned (failed unique_violation))
      | None => (with_projects (<[Project.id row := row]> (projects st)) st,
                 Returned (ok row))
      end
  end.

(** [from('projects').update(u).eq('id', id).select().single()] *)
Definition update_project (fault : option StoreError) (id : jsstring)
    (u : Project.Update) : M (Response Project.t) := λ st,
  match fault with
  | Some e => (st, Returned (failed e))
  | None =>
      match projects st !! id with
      | None => (st, Returned (failed no_rows))
      | Some p =>
          let p' := Project.apply u p in
          (with_projects (<[id := p']> (projects st)) st, Returned (ok p'))
      end
  end.

(** [from('tasks').insert(row).select().single()] *)
Definition insert_task (fault : option StoreError) (row : Task.t)
  : M (Response Task.t) := λ st,
  match fault with
  | Some e => (st, Returned (failed e))
  | None =>
      match tasks st !! Task.id row with
      | Some _ => (st, Returned (failed unique_violation))
      | None => (with_tasks (<[Task.id row := row]> (tasks st)) st,
                 Returned (ok row))
      end
  end.

(** [from('tasks').update(u).eq('id', id).select().single()] *)
Definition update_task (fault : option StoreError) (id : jsstring)
    (u : Task.Update) : M (Response Task.t) := λ st,
  match fault with
  | Some e => (st, Returned (failed e))
  | None =>
      match tasks st !! id with
      | None => (st, Returned (failed no_rows))
      | Some k =>
          let k' := Task.apply u k in
          (with_tasks (<[id := k']> (tasks st)) st, Returned (ok k'))
      end
  end.

(** [from('activity_log').insert(row)]: the answer is its [error]. *)
Definition insert_activity (fault : option StoreError) (row : ActivityLog.t)
  : M (option StoreError) := λ st,
  match fault with
  | Some e => (st, Returned (Some e))
  | None => (with_activity_log (activity_log st ++ [row]) st, Returned None)
  end.

(** [from('projects').select('*').eq('id', id).single()] *)
Definition select_project (fault : option StoreError) (id : jsstring)
  : M (Response Project.t) := λ st,
  match fault with
  | Some e => (st, Returned (failed e))
  | None =>
      match projects st !! id with
      | None => (st, Returned (failed no_rows))
      | Some p => (st, Returned (ok p))
      end
  end.

(** [from('tasks').select('*')] with a [where] clause and an [order by]. *)
Definition select_tasks (fault : option StoreError) (where_ : Task.t → bool)
    (order : relation Task.t) `{∀ x y, Decision (order x y)}
  : M (Response (list Task.t)) := λ st,
  match fault with
  | Some e => (st, Returned (failed e))
  | None =>
      (st, Returned (ok (merge_sort order
                           (List.filter where_ (map_to_list (tasks st)).*2))))
  end.

(** ** The dashboard's value *)

(** A row of [select('status, priority, assigned_team')]. *)
Record TaskSummary := mkTaskSummary {
  ts_status : TaskStatus;
  ts_priority : PriorityLevel;
  ts_assigned_team : option jsstring;
}.

Definition summary (k : Task.t) : TaskSummary :=
  mkTaskSummary (Task.status k) (Task.priority k) (Task.assigned_team k).

(** *** Plain objects used as counters

    Both frequency objects start as the literal [{}]: an object without
    own properties whose prototype is [Object.prototype].  A property
    of such an object holds a number, or the string that [+ 1] makes of
    a value that is not a number. *)
Inductive CountValue :=
| CNum (n : nat)
| CStr (s : jsstring).

Global Instance CountValue_eq_dec : EqDecision CountValue.
Proof. solve_decision. Defined.

(** The text of a built-in function, as Node prints it. *)
Definition native_code (name : jsstring) : jsstring :=
  str "function " ++ name ++ str "() { [native code] }".

(** The built-in methods on [Object.prototype]. *)
Definition Object_prototype_methods : list jsstring :=
  [str "__defineGetter__"; str "__defineSetter__"; str "hasOwnProperty";
   str "__lookupGetter__"; str "__lookupSetter__"; str "isPrototypeOf";
   str "propertyIsEnumerable"; str "toString"; str "valueOf";
   str "toLocaleString"].

(** What a plain object inherits under the name [k], as the string that
    [+] converts it to: [__proto__] reads as [Object.prototype] itself,
    [constructor] as the function [Object], and a method as that
    function.  [None] when [Object.prototype] has no member [k]. *)
Definition Object_prototype (k : jsstring) : option jsstring :=
  if decide (k = str "__proto__") then Some (str "[object Object]")
  else if decide (k = str "constructor") then Some (native_code (str "Object"))
  else if decide (k ∈ Object_prototype_methods) then Some (native_code k)
  else None.

(** [(acc[k] ?? 0) + 1], from what [acc] has as its own property [k]:
    without an own property the read goes to the prototype, and only a
    name that is not found there either reads as [undefined]. *)
Definition plus_one (k : jsstring) (own : option CountValue) : CountValue :=
  match own with
  | Some (CNum n) => CNum (n + 1)
  | Some (CStr s) => CStr (s ++ str "1")
  | None =>
      match Object_prototype k with
      | Some inherited => CStr (inherited ++ str "1")
      | None => CNum (0 + 1)
      end
  end.

(** [acc[k] = v] for a number or a string [v]: an own property, except
    under the name [__proto__], where the inherited setter is called and
    ignores a value that is neither an object nor null. *)
Definition set_property (k : jsstring) (v : CountValue)
    (acc : gmap jsstring CountValue) : gmap jsstring CountValue :=
  if decide (k = str "__proto__") then acc else <[k := v]> acc.

(** [acc[k] = (acc[k] ?? 0) + 1] *)
Definition count_one (k : jsstring) (acc : gmap jsstring CountValue)
  : gmap jsstring CountValue :=
  set_property k (plus_one k (acc !! k)) acc.

(** The object [ha_status_project] serialises. *)
Record Dashboard := mkDashboard {
  project : option Project.t;
  total : nat;
  by_status : gmap jsstring CountValue;
  by_team : gmap jsstring CountValue;
  recent_activity : list ActivityLog.t;
}.

Definition statusCounts (tasks : list TaskSummary) : gmap jsstring CountValue :=
  foldl (λ acc t, count_one (TaskStatus_name (ts_status t)) acc) ∅ tasks.

Definition teamCounts (tasks : list TaskSummary) : gmap jsstring CountValue :=
  foldl (λ acc t,
           match ts_assigned_team t with
           | Some team => if truthy team then count_one team acc else acc
           | None => acc
           end) ∅ tasks.

(** [from('tasks').select('status, priority, assigned_team')
      .eq('project_id', pid)] *)
Definition select_task_summaries (fault : option StoreError) (pid : jsstring)
  : M (Response (list TaskSummary)) := λ st,
  match fault with
  | Some e => (st, Returned (failed e))
  | None =>
      (st, Returned (ok (summary <$>
             List.filter (λ k, bool_decide (Task.project_id k = pid))
               (map_to_list (tasks st)).*2)))
  end.

Definition newest_first (a b : ActivityLog.t) : Prop :=
  (ActivityLog.created_at b ≤ ActivityLog.created_at a)%Z.

Global Instance newest_first_dec a b : Decision (newest_first a b).
Proof. unfold newest_first. apply _. Defined.

(** [from('activity_log').select('*').eq('project_id', pid)
      .order('created_at', { ascending: false }).limit(10)] *)
Definition select_recent_activity (fault : option StoreError) (pid : jsstring)
  : M (Response (list ActivityLog.t)) := λ st,
  match fault with
  | Some e => (st, Returned (failed e))
  | None =>
      (st, Returned (ok (take 10 (merge_sort newest_first
             (List.filter (λ a, bool_decide (ActivityLog.project_id a = Some pid))
                (activity_log st))))))
  end.

(** [options] of [logActivity]. *)
Record LogOptions := mkLogOptions {
  projectId : option jsstring;
  team : option jsstring;
  relatedId : option jsstring;
  relatedType : option jsstring;
}.

(** ** The tools that write an entity row and log the change

    The server dispatches a tool name and its arguments to the handler
    registered under that name.  These are the five handlers that write
    a project or task row and then call [logActivity]. *)
Inductive ToolCall :=
| Call_project_create (name : jsstring) (description template : option jsstring)
    (autonomous : option bool)
| Call_project_update (project_id : jsstring) (name description : option jsstring)
    (status : option ProjectStatus) (settings : option Json)
| Call_task_create (project_id title : jsstring)
    (description team agent : option jsstring) (priority : option PriorityLevel)
    (parent_id : option jsstring) (estimated_hours : option number)
    (tags : option (list jsstring))
| Call_task_assign (task_id team : jsstring) (agent : option jsstring)
| Call_task_status (task_id : jsstring) (status : TaskStatus)
    (agent notes : option jsstring).

(** The [data] a handler serialises as its result. *)
Inductive Entity :=
| AProject (p : option Project.t)
| ATask (k : Task.t).

Section Server.

(** [String.prototype.toLowerCase]. *)
Variable toLowerCase : jsstring → jsstring.

(** Whether the client library's error objects are instances of [Error]
    (they are in recent versions of the client, plain objects before). *)
Variable store_error_instanceof_Error : bool.

(** The position the store gives each priority in [order('priority')]:
    the column's type is declared in the database schema, which is not
    part of the sources. *)
Variable priority_column_rank : PriorityLevel → nat.

(** ** [generateSlug] (supabase.ts) *)

Definition generateSlug (name : jsstring) : jsstring :=
  trim
    (replace_runs is_hyphen hyphen false
       (replace_runs is_space hyphen false
          (remove_outside_class
             (toLowerCase name)))).

(** ** [handleError] and [logActivity] (supabase.ts) *)

(** [handleError(error): never].  [String(error)] of an object that is
    not an [Error] is the default object tag. *)
Definition handleError {A} (e : StoreError) : M A :=
  if store_error_instanceof_Error
  then throw (StoreFault e)
  else throw (Error_ (str "[object Object]")).

Definition logActivity (env : Env) (agent action : jsstring) (details : Json)
    (options : LogOptions) : M unit :=
  err <- insert_activity (log_fault env)
           {| ActivityLog.id := log_id env;
              ActivityLog.agent := agent;
              ActivityLog.action := action;
              ActivityLog.details := details;
              ActivityLog.project_id := projectId options;
              ActivityLog.team := team options;
              ActivityLog.related_id := relatedId options;
              ActivityLog.related_type := relatedType options;
              ActivityLog.created_at := now env |} ;;
  match err with
  | Some e => handleError e
  | None => ret tt
  end.

(** ** Project tools (index.ts) *)

Definition ha_project_create (env : Env) (name : jsstring)
    (description template : option jsstring) (autonomous : option bool)
  : M Project.t :=
  let slug := generateSlug name in
  res <- insert_project (entity_fault env)
           {| Project.id := new_id env;
              Project.name := name;
              Project.slug := slug;
              Project.description := description;
              Project.template := template;
              Project.status := planning;
              Project.settings :=
                object [(str "autonomous", Some (JBool (autonomous ?? false)))];
              Project.tech_stack := object [];
              Project.metadata := object [];
              Project.created_at := now env;
              Project.updated_at := now env |} ;;
  match error res with
  | Some e => throw (Error_ (str "Failed to create project: " ++ message e))
  | None =>
      d <- non_null (data res) ;;
      _ <- logActivity env (str "system") (str "project_created")
             (object [(str "name", Some (JStr name));
                      (str "template", JStr <$> template)])
             (mkLogOptions (Some (Project.id d)) None None None) ;;
      ret d
  end.

(** The object [updateData] that [ha_project_update] builds. *)
Definition ha_project_update_updateData
    (name description : option jsstring) (status : option ProjectStatus)
    (settings : option Json) : Project.Update :=
  let updateData := Project.no_update in
  let updateData :=
    match name with
    | Some n =>
        if truthy n
        then Project.set_slug (generateSlug n) (Project.set_name n updateData)
        else updateData
    | None => updateData
    end in
  let updateData :=
    match description with
    | Some d => Project.set_description d updateData
    | None => updateData
    end in
  let updateData :=
    match status with
    | Some s => Project.set_status s updateData
    | None => updateData
    end in
  let updateData :=
    match settings with
    | Some v => Project.set_settings v updateData
    | None => updateData
    end in
  updateData.

Definition ha_project_update (env : Env) (project_id : jsstring)
    (name description : option jsstring) (status : option ProjectStatus)
    (settings : option Json) : M (option Project.t) :=
  let updateData :=
    ha_project_update_updateData name description status settings in
  res <- update_project (entity_fault env) project_id updateData ;;
  match error res with
  | Some e => throw (Error_ (str "Failed to update project: " ++ message e))
  | None =>
      _ <- logActivity env (str "system") (str "project_updated")
             (object [(str "name", JStr <$> name);
                      (str "description", JStr <$> description);
                      (str "status", (λ s, JStr (ProjectStatus_name s)) <$> status);
                      (str "settings", settings)])
             (mkLogOptions (Some project_id) None None None) ;;
      ret (data res)
  end.

(** ** Task tools (index.ts) *)

Definition ha_task_create (env : Env) (project_id title : jsstring)
    (description team agent : option jsstring)
    (priority : option PriorityLevel) (parent_id : option jsstring)
    (estimated_hours : option number) (tags : option (list jsstring))
  : M Task.t :=
  res <- insert_task (entity_fault env)
           {| Task.id := new_id env;
              Task.project_id := project_id;
              Task.title := title;
              Task.description := description;
              Task.assigned_team := toLowerCase <$> team;
              Task.assigned_agent := toLowerCase <$> agent;
              Task.priority := priority ?? medium;
              Task.parent_id := parent_id;
              Task.estimated_hours := estimated_hours;
              Task.tags := tags ?? [];
              Task.status := backlog;
              Task.roadmap_id := None;
              Task.blocked_by := None;
              Task.blocker_reason := None;
              Task.deliverable_path := None;
              Task.deliverables := [];
              Task.metadata := object [];
              Task.created_by := Some (agent ?? str "system");
              Task.updated_by := None;
              Task.actual_hours := None;
              Task.due_date := None;
              Task.started_at := None;
              Task.completed_at := None;
              Task.created_at := now env;
              Task.updated_at := now env |} ;;
  match error res with
  | Some e => throw (Error_ (str "Failed to create task: " ++ message e))
  | None =>
      d <- non_null (data res) ;;
      _ <- logActivity env (agent ?? str "system") (str "task_created")
             (object [(str "title", Some (JStr title));
                      (str "team", JStr <$> team)])
             (mkLogOptions (Some project_id) team (Some (Task.id d))
                (Some (str "task"))) ;;
      ret d
  end.

(** The object [updateData] that [ha_task_update] builds. *)
Definition ha_task_update_updateData (env : Env)
    (updated_by title description : option jsstring)
    (status : option TaskStatus) (priority : option PriorityLevel)
    (team agent : option jsstring)
    (estimated_hours actual_hours : option number) : Task.Update :=
  let updateData :=
    Task.set_updated_by (Some (updated_by ?? str "system")) Task.no_update in
  let updateData :=
    match title with
    | Some v => if truthy v then Task.set_title v updateData else updateData
    | None => updateData
    end in
  let updateData :=
    match description with
    | Some v => Task.set_description (Some v) updateData
    | None => updateData
    end in
  let updateData :=
    match status with
    | Some s =>
        let updateData := Task.set_status s updateData in
        let updateData :=
          if decide (s = in_progress)
          then Task.set_started_at (Some (now env)) updateData
          else updateData in
        if decide (s = done)
        then Task.set_completed_at (Some (now env)) updateData
        else updateData
    | None => updateData
    end in
  let updateData :=
    match priority with
    | Some v => Task.set_priority v updateData
    | None => updateData
    end in
  let updateData :=
    match team with
    | Some v =>
        if truthy v
        then Task.set_assigned_team (Some (toLowerCase v)) updateData
        else updateData
    | None => updateData
    end in
  let updateData :=
    match agent with
    | Some v =>
        if truthy v
        then Task.set_assigned_agent (Some (toLowerCase v)) updateData
        else updateData
    | None => updateData
    end in
  let updateData :=
    match estimated_hours with
    | Some v => Task.set_estimated_hours (Some v) updateData
    | None => updateData
    end in
  let updateData :=
    match actual_hours with
    | Some v => Task.set_actual_hours (Some v) updateData
    | None => updateData
    end in
  updateData.

Definition ha_task_update (env : Env) (task_id : jsstring)
    (updated_by title description : option jsstring)
    (status : option TaskStatus) (priority : option PriorityLevel)
    (team agent : option jsstring)
    (estimated_hours actual_hours : option number) : M (option Task.t) :=
  let updateData :=
    ha_task_update_updateData env updated_by title description status
      priority team agent estimated_hours actual_hours in
  res <- update_task (entity_fault env) task_id updateData ;;
  match error res with
  | Some e => throw (Error_ (str "Failed to update task: " ++ message e))
  | None => ret (data res)
  end.

(** The object literal that [ha_task_assign] passes to [update]. *)
Definition ha_task_assign_updateData (team : jsstring)
    (agent : option jsstring) : Task.Update :=
  Task.set_updated_by (Some (agent ?? str "system"))
    (Task.set_status todo
       (Task.set_assigned_agent (toLowerCase <$> agent)
          (Task.set_assigned_team (Some (toLowerCase team))
             Task.no_update))).

Definition ha_task_assign (env : Env) (task_id team : jsstring)
    (agent : option jsstring) : M Task.t :=
  res <- update_task (entity_fault env) task_id
           (ha_task_assign_updateData team agent) ;;
  match error res with
  | Some e => throw (Error_ (str "Failed to assign task: " ++ message e))
  | None =>
      d <- non_null (data res) ;;
      _ <- logActivity env (agent ?? str "system") (str "task_assigned")
             (object [(str "team", Some (JStr team));
                      (str "agent", JStr <$> agent)])
             (mkLogOptions (Some (Task.project_id d)) (Some team)
                (Some task_id) (Some (str "task"))) ;;
      ret d
  end.

(** The object [updateData] that [ha_task_status] builds. *)
Definition ha_task_status_updateData (env : Env)
    (status : TaskStatus) (agent notes : option jsstring) : Task.Update :=
  let updateData :=
    Task.set_updated_by (Some (agent ?? str "system"))
      (Task.set_status status Task.no_update) in
  let updateData :=
    if decide (status = in_progress)
    then Task.set_started_at (Some (now env)) updateData
    else updateData in
  let updateData :=
    if decide (status = done)
    then Task.set_completed_at (Some (now env)) updateData
    else updateData in
  let updateData :=
    match notes with
    | Some n =>
        if bool_decide (status = blocked) && truthy n
        then Task.set_blocker_reason (Some n) updateData
        else updateData
    | None => updateData
    end in
  let updateData :=
    if decide (status ≠ blocked)
    then Task.set_blocker_reason None updateData
    else updateData in
  updateData.

Definition ha_task_status (env : Env) (task_id : jsstring)
    (status : TaskStatus) (agent notes : option jsstring) : M Task.t :=
  let updateData := ha_task_status_updateData env status agent notes in
  res <- update_task (entity_fault env) task_id updateData ;;
  match error res with
  | Some e => throw (Error_ (str "Failed to update status: " ++ message e))
  | None =>
      d <- non_null (data res) ;;
      _ <- logActivity env (agent ?? str "system")
             (str "task_" ++ TaskStatus_name status)
             (object [(str "notes", JStr <$> notes)])
             (mkLogOptions (Some (Task.project_id d)) (Task.assigned_team d)
                (Some task_id) (Some (str "task"))) ;;
      ret d
  end.

(** [order('priority').order('created_at', { ascending: false })]: the
    store's order on priorities first, the newer row first among equal
    priorities. *)
Definition priority_then_newest (a b : Task.t) : Prop :=
  priority_column_rank (Task.priority a) < priority_column_rank (Task.priority b)
  ∨ (priority_column_rank (Task.priority a) = priority_column_rank (Task.priority b)
     ∧ (Task.created_at b ≤ Task.created_at a)%Z).

Global Instance priority_then_newest_dec a b : Decision (priority_then_newest a b).
Proof. unfold priority_then_newest. apply _. Defined.

(** [in('status', ['backlog', 'todo', 'in_progress', 'review', 'blocked'])] *)
Definition status_in_active (k : Task.t) : bool :=
  bool_decide (Task.status k ∈ [backlog; todo; in_progress; review; blocked]).

(** The filters of [ha_task_my_tasks]:
    [eq('assigned_agent', agent.toLowerCase())] and, unless
    [include_done], the [in('status', ...)] above. *)
Definition my_tasks_where (agent : jsstring) (include_done : option bool)
    (k : Task.t) : bool :=
  bool_decide (Task.assigned_agent k = Some (toLowerCase agent))
  && (if negb (include_done ?? false) then status_in_active k else true).

Definition ha_task_my_tasks (env : Env) (agent : jsstring)
    (include_done : option bool) : M (list Task.t) :=
  res <- select_tasks (entity_fault env) (my_tasks_where agent include_done)
           priority_then_newest ;;
  match error res with
  | Some e => throw (Error_ (str "Failed to get tasks: " ++ message e))
  | None => ret (data res ?? [])
  end.

(** The filters of [ha_task_team_tasks]:
    [eq('assigned_team', team.toLowerCase())] and, unless
    [include_done], the [in('status', ...)] above. *)
Definition team_tasks_where (team : jsstring) (include_done : option bool)
    (k : Task.t) : bool :=
  bool_decide (Task.assigned_team k = Some (toLowerCase team))
  && (if negb (include_done ?? false) then status_in_active k else true).

Definition ha_task_team_tasks (env : Env) (team : jsstring)
    (include_done : option bool) : M (list Task.t) :=
  res <- select_tasks (entity_fault env) (team_tasks_where team include_done)
           priority_then_newest ;;
  match error res with
  | Some e => throw (Error_ (str "Failed to get team tasks: " ++ message e))
  | None => ret (data res ?? [])
  end.

(** ** Status tool (index.ts) *)

Definition ha_status_project
    (project_fault tasks_fault activity_fault : option StoreError)
    (project_id : jsstring) : M Dashboard :=
  projectRes <- select_project project_fault project_id ;;
  tasksRes <- select_task_summaries tasks_fault project_id ;;
  activityRes <- select_recent_activity activity_fault project_id ;;
  match error projectRes with
  | Some e => throw (Error_ (str "Project not found: " ++ message e))
  | None =>
      let tasks := data tasksRes ?? [] in
      ret {| project := data projectRes;
             total := length tasks;
             by_status := statusCounts tasks;
             by_team := teamCounts tasks;
             recent_activity := data activityRes ?? [] |}
  end.

(** ** Dispatch *)

Definition call_tool (env : Env) (c : ToolCall) : M Entity :=
  match c with
  | Call_project_create name description template autonomous =>
      p <- ha_project_create env name description template autonomous ;;
      ret (AProject (Some p))
  | Call_project_update project_id name description status settings =>
      p <- ha_project_update env project_id name description status settings ;;
      ret (AProject p)
  | Call_task_create project_id title description team agent priority
      parent_id estimated_hours tags =>
      k <- ha_task_create env project_id title description team agent priority
             parent_id estimated_hours tags ;;
      ret (ATask k)
  | Call_task_assign task_id team agent =>
      k <- ha_task_assign env task_id team agent ;;
      ret (ATask k)
  | Call_task_status task_id status agent notes =>
      k <- ha_task_status env task_id status agent notes ;;
      ret (ATask k)
  end.

(** ** The other tools of index.ts *)

(** A filter the handler adds only when the argument is a non-empty
    string: [if (x) query = query.eq(col, x)]. *)
Definition if_truthy (o : option jsstring) (cond : jsstring → bool) : bool :=
  match o with
  | Some v => if truthy v then cond v else true
  | None => true
  end.

(** The same for an argument of an enumeration, which is never falsy. *)
Definition if_given {A} (o : option A) (cond : A → bool) : bool :=
  match o with
  | Some v => cond v
  | None => true
  end.

(** [where ... order by ... limit n] over the rows of a table.  [limit]
    is a count of rows, a natural number. *)
Definition page {A} (where_ : A → bool) (order : relation A)
    `{∀ x y, Decision (order x y)} (limit : nat) (rows : list A) : list A :=
  take limit (merge_sort order (List.filter where_ rows)).

Definition project_rows (st : Store) : list Project.t :=
  (map_to_list (projects st)).*2.
Definition task_rows (st : Store) : list Task.t :=
  (map_to_list (tasks st)).*2.

(** *** [ha_project_get] *)

(** [[0-9a-f]] under the flag [i]. *)
Definition is_hex_digit (c : N) : bool :=
  is_digit c || ((97 <=? c)%N && (c <=? 102)%N) || ((65 <=? c)%N && (c <=? 70)%N).

(** [[0-9a-f]{n}] at the head of [s]; the rest of [s] when it matches. *)
Fixpoint match_hex (n : nat) (s : jsstring) : option jsstring :=
  match n with
  | 0 => Some s
  | S n' =>
      match s with
      | c :: r => if is_hex_digit c then match_hex n' r else None
      | [] => None
      end
  end.

(** [-] at the head of [s]. *)
Definition match_hyphen (s : jsstring) : option jsstring :=
  match s with
  | c :: r => if is_hyphen c then Some r else None
  | [] => None
  end.

(** [/^[0-9a-f]{8}-[0-9a-f]{4}-[0-9a-f]{4}-[0-9a-f]{4}-[0-9a-f]{12}$/i
      .test(identifier)] *)
Definition isUuid (identifier : jsstring) : bool :=
  let rest := match_hex 8 identifier in
  let rest := rest ≫= match_hyphen in
  let rest := rest ≫= match_hex 4 in
  let rest := rest ≫= match_hyphen in
  let rest := rest ≫= match_hex 4 in
  let rest := rest ≫= match_hyphen in
  let rest := rest ≫= match_hex 4 in
  let rest := rest ≫= match_hyphen in
  let rest := rest ≫= match_hex 12 in
  match rest with
  | Some [] => true
  | _ => false
  end.

(** [from('projects').select('*').eq('slug', slug).single()] *)
Definition select_project_by_slug (fault : option StoreError) (slug : jsstring)
  : M (Response Project.t) := λ st,
  match fault with
  | Some e => (st, Returned (failed e))
  | None =>
      match List.filter (λ p, bool_decide (Project.slug p = slug))
              (project_rows st) with
      | [p] => (st, Returned (ok p))
      | _ => (st, Returned (failed no_rows))
      end
  end.

Definition ha_project_get (env : Env) (identifier : jsstring)
  : M (option Project.t) :=
  res <- (if isUuid identifier
          then select_project (entity_fault env) identifier
          else select_project_by_slug (entity_fault env) identifier) ;;
  match error res with
  | Some e => throw (Error_ (str "Project not found: " ++ message e))
  | None => ret (data res)
  end.

(** *** [ha_project_list] *)

Definition recently_updated_first (a b : Project.t) : Prop :=
  (Project.updated_at b ≤ Project.updated_at a)%Z.

Global Instance recently_updated_first_dec a b :
  Decision (recently_updated_first a b).
Proof. unfold recently_updated_first. apply _. Defined.

Definition project_list_where (status : option ProjectStatus)
    (p : Project.t) : bool :=
  if_given status (λ v, bool_decide (Project.status p = v)).

Definition ha_project_list (env : Env) (status : option ProjectStatus)
    (limit : option nat) : M (list Project.t) := λ st,
  match entity_fault env with
  | Some e => (st, Threw (Error_ (str "Failed to list projects: " ++ message e)))
  | None =>
      (st, Returned (page (project_list_where status) recently_updated_first
                       (limit ?? 20) (project_rows st)))
  end.

(** *** [ha_task_list] *)

Definition newest_task_first (a b : Task.t) : Prop :=
  (Task.created_at b ≤ Task.created_at a)%Z.

Global Instance newest_task_first_dec a b : Decision (newest_task_first a b).
Proof. unfold newest_task_first. apply _. Defined.

Definition task_list_where (project_id : option jsstring)
    (status : option TaskStatus) (team agent : option jsstring)
    (priority : option PriorityLevel) (k : Task.t) : bool :=
  if_truthy project_id (λ v, bool_decide (Task.project_id k = v))
  && if_given status (λ v, bool_decide (Task.status k = v))
  && if_truthy team
       (λ v, bool_decide (Task.assigned_team k = Some (toLowerCase v)))
  && if_truthy agent
       (λ v, bool_decide (Task.assigned_agent k = Some (toLowerCase v)))
  && if_given priority (λ v, bool_decide (Task.priority k = v)).

Definition ha_task_list (env : Env) (project_id : option jsstring)
    (status : option TaskStatus) (team agent : option jsstring)
    (priority : option PriorityLevel) (limit : option nat)
  : M (list Task.t) := λ st,
  match entity_fault env with
  | Some e => (st, Threw (Error_ (str "Failed to list tasks: " ++ message e)))
  | None =>
      (st, Returned (page (task_list_where project_id status team agent priority)
                       newest_task_first (limit ?? 50) (task_rows st)))
  end.

(** *** [ha_activity_log] and [ha_activity_get] *)

Definition ha_activity_log (env : Env) (agent action : jsstring)
    (details : option Json) (project_id team : option jsstring)
  : M jsstring :=
  _ <- logActivity env agent action (details ?? object [])
         (mkLogOptions project_id team None None) ;;
  ret (str "Activity logged successfully").

Definition activity_get_where (project_id agent team action : option jsstring)
    (a : ActivityLog.t) : bool :=
  if_truthy project_id (λ v, bool_decide (ActivityLog.project_id a = Some v))
  && if_truthy agent (λ v, bool_decide (ActivityLog.agent a = v))
  && if_truthy team (λ v, bool_decide (ActivityLog.team a = Some v))
  && if_truthy action (λ v, bool_decide (ActivityLog.action a = v)).

Definition ha_activity_get (env : Env)
    (project_id agent team action : option jsstring) (limit : option nat)
  : M (list ActivityLog.t) := λ st,
  match entity_fault env with
  | Some e => (st, Threw (Error_ (str "Failed to get activity: " ++ message e)))
  | None =>
      (st, Returned (page (activity_get_where project_id agent team action)
                       newest_first (limit ?? 50) (activity_log st)))
  end.

(** ** The other helpers of supabase.ts *)

(** [findProjectBySlug]: the answer "not exactly one row" is turned into
    [null], any other error is thrown. *)
Definition findProjectBySlug (env : Env) (slug : jsstring)
  : M (option Project.t) :=
  res <- select_project_by_slug (entity_fault env) slug ;;
  match error res with
  | Some e =>
      if bool_decide (code e ≠ str "PGRST116")
      then handleError e
      else ret (data res)
  | None => ret (data res)
  end.

(** [in('status', ['todo', 'in_progress', 'review', 'blocked'])] *)
Definition status_in_open (k : Task.t) : bool :=
  bool_decide (Task.status k ∈ [todo; in_progress; review; blocked]).

Definition findTasksByAgent (env : Env) (agentName : jsstring)
  : M (list Task.t) := λ st,
  match entity_fault env with
  | Some e => handleError e st
  | None =>
      (st, Returned
             (List.filter
                (λ k, bool_decide (Task.assigned_agent k = Some (toLowerCase agentName))
                      && status_in_open k)
                (task_rows st)))
  end.

Definition findTasksByTeam (env : Env) (teamName : jsstring)
  : M (list Task.t) := λ st,
  match entity_fault env with
  | Some e => handleError e st
  | None =>
      (st, Returned
             (List.filter
                (λ k, bool_decide (Task.assigned_team k = Some (toLowerCase teamName))
                      && status_in_open k)
                (task_rows st)))
  end.

(** * Properties *)

(** ** The slug *)

Abbreviation slug_units := (Forall (λ c, is_slug_unit c = true)).

(** No two neighbouring units are both hyphens. *)
Fixpoint hyphens_single (s : jsstring) : bool :=
  match s with
  | c :: r =>
      match r with
      | d :: _ => negb (is_hyphen c && is_hyphen d) && hyphens_single r
      | [] => true
      end
  | [] => true
  end.

Definition starts_with_hyphen (s : jsstring) : bool :=
  match s with c :: _ => is_hyphen c | [] => false end.

Lemma slug_unit_kept c : is_slug_unit c = true → in_kept_class c = true.
Proof.
  unfold is_slug_unit, in_kept_class.
  destruct (is_lower_az c), (is_digit c), (is_space c), (is_hyphen c); done.
Qed.

Lemma slug_unit_not_space c : is_slug_unit c = true → is_space c = false.
Proof.
  unfold is_slug_unit, is_lower_az, is_digit, is_hyphen, hyphen. intros Hc.
  apply not_true_is_false. unfold is_space. intros Hs.
  repeat (apply orb_prop in Hc as [Hc|Hc] || apply orb_prop in Hs as [Hs|Hs]);
    rewrite ?andb_true_iff, ?N.leb_le, ?N.eqb_eq in Hc;
    rewrite ?andb_true_iff, ?N.leb_le, ?N.eqb_eq in Hs; lia.
Qed.

Lemma kept_not_space_slug c :
  in_kept_class c = true → is_space c = false → is_slug_unit c = true.
Proof.
  unfold is_slug_unit, in_kept_class. intros Hk Hs. rewrite Hs in Hk.
  destruct (is_lower_az c), (is_digit c), (is_hyphen c); done.
Qed.

Lemma hyphen_slug_unit : is_slug_unit hyphen = true.
Proof. reflexivity. Qed.

Lemma is_hyphen_eq c : is_hyphen c = true → c = hyphen.
Proof. unfold is_hyphen. by rewrite N.eqb_eq. Qed.

Lemma remove_outside_class_kept s :
  Forall (λ c, in_kept_class c = true) (remove_outside_class s).
Proof.
  unfold remove_outside_class. induction s as [|c r IH]; simpl; [constructor|].
  destruct (in_kept_class c) eqn:Hc; [constructor|]; done.
Qed.

Lemma remove_outside_class_id s :
  Forall (λ c, in_kept_class c = true) s → remove_outside_class s = s.
Proof.
  unfold remove_outside_class. induction 1 as [|c r Hc _ IH]; simpl; [done|].
  by rewrite Hc, IH.
Qed.

Lemma replace_spaces_slug b s :
  Forall (λ c, in_kept_class c = true) s →
  slug_units (replace_runs is_space hyphen b s).
Proof.
  intros Hs. revert b. induction Hs as [|c r Hc _ IH]; intros b; simpl.
  - constructor.
  - destruct (is_space c) eqn:Hsp.
    + destruct b; [apply IH|]. constructor; [apply hyphen_slug_unit | apply IH].
    + constructor; [by apply kept_not_space_slug | apply IH].
Qed.

Lemma collapse_hyphens_slug b s :
  slug_units s → slug_units (replace_runs is_hyphen hyphen b s).
Proof.
  intros Hs. revert b. induction Hs as [|c r Hc _ IH]; intros b; simpl.
  - constructor.
  - destruct (is_hyphen c).
    + destruct b; [apply IH|]. constructor; [apply hyphen_slug_unit | apply IH].
    + constructor; [done | apply IH].
Qed.

Lemma collapse_hyphens_single s b :
  hyphens_single (replace_runs is_hyphen hyphen b s) = true
  ∧ (b = true → starts_with_hyphen (replace_runs is_hyphen hyphen b s) = false).
Proof.
  revert b. induction s as [|c r IH]; intros b; simpl; [done|].
  destruct (is_hyphen c) eqn:Hc.
  - destruct b; [apply IH|]. split; [|done].
    destruct (IH true) as [H1 H2]. specialize (H2 eq_refl).
    simpl. destruct (replace_runs is_hyphen hyphen true r) as [|d r'] eqn:E; [done|].
    simpl in H2. by rewrite H2, H1.
  - split; [|by intros; simpl].
    destruct (IH false) as [H1 _].
    simpl. destruct (replace_runs is_hyphen hyphen false r) as [|d r'] eqn:E; [done|].
    by rewrite Hc.
Qed.

Lemma replace_runs_absent p by_ b s :
  Forall (λ c, p c = false) s → replace_runs p by_ b s = s.
Proof.
  intros Hs. revert b. induction Hs as [|c r Hc _ IH]; intros b; simpl; [done|].
  by rewrite Hc, IH.
Qed.

Lemma collapse_hyphens_id s b :
  hyphens_single s = true → (b = true → starts_with_hyphen s = false) →
  replace_runs is_hyphen hyphen b s = s.
Proof.
  revert b. induction s as [|c r IH]; intros b Hs Hb; simpl; [done|].
  destruct (is_hyphen c) eqn:Hc.
  - destruct b; [by specialize (Hb eq_refl); simpl in Hb; congruence|].
    rewrite (is_hyphen_eq c Hc). f_equal. apply IH; [|intros _].
    + simpl in Hs. destruct r; [done|]. by apply andb_true_iff in Hs as [_ ?].
    + simpl in Hs. destruct r as [|d r']; [done|]. simpl.
      apply andb_true_iff in Hs as [Hs _]. rewrite Hc in Hs. simpl in Hs.
      by destruct (is_hyphen d).
  - f_equal. apply IH; [|done].
    simpl in Hs. destruct r; [done|]. by apply andb_true_iff in Hs as [_ ?].
Qed.

Lemma dropWhile_absent p s : Forall (λ c, p c = false) s → dropWhile p s = s.
Proof. destruct 1 as [|c r Hc _]; simpl; [done|]. by rewrite Hc. Qed.

Lemma trim_no_space s : Forall (λ c, is_space c = false) s → trim s = s.
Proof.
  intros Hs. unfold trim, trimStart, trimEnd.
  rewrite (dropWhile_absent _ s Hs).
  rewrite dropWhile_absent; [apply rev_involutive|].
  by apply Forall_rev.
Qed.

Lemma slug_units_no_space s : slug_units s → Forall (λ c, is_space c = false) s.
Proof. intros Hs. eapply Forall_impl; [exact Hs | apply slug_unit_not_space]. Qed.

(** The string the three replaces leave, before [trim]. *)
Definition replaced (name : jsstring) : jsstring :=
  replace_runs is_hyphen hyphen false
    (replace_runs is_space hyphen false
       (remove_outside_class (toLowerCase name))).

Lemma replaced_slug_units name : slug_units (replaced name).
Proof.
  apply collapse_hyphens_slug, replace_spaces_slug, remove_outside_class_kept.
Qed.

(** [trim] finds no white space to strip: the slug is what the replaces
    left. *)
Lemma generateSlug_replaced name : generateSlug name = replaced name.
Proof.
  unfold generateSlug. apply trim_no_space, slug_units_no_space, replaced_slug_units.
Qed.

(** Every unit of a slug is in [[a-z0-9-]]. *)
Lemma generateSlug_slug_units name : slug_units (generateSlug name).
Proof. rewrite generateSlug_replaced. apply replaced_slug_units. Qed.

(** A slug has no two hyphens in a row. *)
Lemma generateSlug_hyphens_single name : hyphens_single (generateSlug name) = true.
Proof. rewrite generateSlug_replaced. apply collapse_hyphens_single. Qed.

Lemma hyphens_single_no_pair s :
  hyphens_single s = true → ∀ pre post, s ≠ pre ++ hyphen :: hyphen :: post.
Proof.
  intros Hs pre. revert s Hs. induction pre as [|c pre IH]; intros s Hs post ->.
  - done.
  - simpl in Hs. destruct (pre ++ hyphen :: hyphen :: post) eqn:E.
    + by destruct pre.
    + apply andb_true_iff in Hs as [_ Hs]. by eapply IH.
Qed.

(** C6.  [generateSlug] is a function of its argument alone, and applying
    it to one of its own results gives that result back: a slug consists
    of units of [[a-z0-9-]] with no run of hyphens, so lower-casing and
    the three replaces find nothing to change and [trim] nothing to strip.
    [toLowerCase] is only required to leave a string of lower-case
    letters, digits and hyphens as it is. *)
Theorem generateSlug_idempotent (x : jsstring) :
  (∀ s, slug_units s → toLowerCase s = s) →
  generateSlug (generateSlug x) = generateSlug x.
Proof.
  intros Hlower.
  pose proof (generateSlug_slug_units x) as Hu.
  pose proof (generateSlug_hyphens_single x) as Hh.
  rewrite (generateSlug_replaced (generateSlug x)). unfold replaced.
  rewrite (Hlower _ Hu).
  rewrite remove_outside_class_id by (eapply Forall_impl; [exact Hu | apply slug_unit_kept]).
  rewrite (replace_runs_absent is_space) by by apply slug_units_no_space.
  by apply collapse_hyphens_id.
Qed.

(** ** Running the store calls *)

(** The exception [handleError] throws for a store error. *)
Definition thrown_by_handleError (e : StoreError) : Exception :=
  if store_error_instanceof_Error then StoreFault e
  else Error_ (str "[object Object]").

Lemma handleError_run {A} e st :
  handleError (A:=A) e st = (st, Threw (thrown_by_handleError e)).
Proof.
  unfold handleError, thrown_by_handleError.
  by destruct store_error_instanceof_Error.
Qed.

(** The row [logActivity] inserts. *)
Definition activity_row (env : Env) (agent action : jsstring) (details : Json)
    (options : LogOptions) : ActivityLog.t :=
  {| ActivityLog.id := log_id env;
     ActivityLog.agent := agent;
     ActivityLog.action := action;
     ActivityLog.details := details;
     ActivityLog.project_id := projectId options;
     ActivityLog.team := team options;
     ActivityLog.related_id := relatedId options;
     ActivityLog.related_type := relatedType options;
     ActivityLog.created_at := now env |}.

Lemma logActivity_run env agent action details options st :
  logActivity env agent action details options st =
  match log_fault env with
  | Some e => (st, Threw (thrown_by_handleError e))
  | None =>
      (with_activity_log
         (activity_log st ++ [activity_row env agent action details options]) st,
       Returned tt)
  end.
Proof.
  unfold logActivity, bind, insert_activity.
  destruct (log_fault env); [apply handleError_run | done].
Qed.

Lemma update_task_run id u k st :
  tasks st !! id = Some k →
  update_task None id u st =
  (with_tasks (<[id := Task.apply u k]> (tasks st)) st,
   Returned (ok (Task.apply u k))).
Proof. intros Hk. unfold update_task. by rewrite Hk. Qed.

Lemma update_project_run id u p st :
  projects st !! id = Some p →
  update_project None id u st =
  (with_projects (<[id := Project.apply u p]> (projects st)) st,
   Returned (ok (Project.apply u p))).
Proof. intros Hp. unfold update_project. by rewrite Hp. Qed.

(** The task row a call to [ha_task_status] leaves in the store, whether
    or not the activity row could be written afterwards. *)
Lemma ha_task_status_row env task_id status agent notes k st :
  tasks st !! task_id = Some k →
  entity_fault env = None →
  tasks (ha_task_status env task_id status agent notes st).1 !! task_id =
  Some (Task.apply (ha_task_status_updateData env status agent notes) k).
Proof.
  intros Hk Hf. unfold ha_task_status, bind. rewrite Hf.
  rewrite (update_task_run _ _ k) by done. simpl.
  rewrite logActivity_run. destruct (log_fault env); simpl; apply lookup_insert_eq.
Qed.

Lemma ha_task_update_run env task_id updated_by title description status
    priority team agent estimated_hours actual_hours k st :
  tasks st !! task_id = Some k →
  entity_fault env = None →
  let u := ha_task_update_updateData env updated_by title description status
             priority team agent estimated_hours actual_hours in
  ha_task_update env task_id updated_by title description status priority
    team agent estimated_hours actual_hours st =
  (with_tasks (<[task_id := Task.apply u k]> (tasks st)) st,
   Returned (Some (Task.apply u k))).
Proof.
  intros Hk Hf u. unfold ha_task_update, bind. rewrite Hf.
  by rewrite (update_task_run _ _ k).
Qed.

Lemma ha_task_assign_row env task_id team agent k st :
  tasks st !! task_id = Some k →
  entity_fault env = None →
  tasks (ha_task_assign env task_id team agent st).1 !! task_id =
  Some (Task.apply (ha_task_assign_updateData team agent) k).
Proof.
  intros Hk Hf. unfold ha_task_assign, bind. rewrite Hf.
  rewrite (update_task_run _ _ k) by done. simpl.
  rewrite logActivity_run. destruct (log_fault env); simpl; apply lookup_insert_eq.
Qed.

(** ** What the two status-writing handlers assign *)

Lemma ha_task_status_updateData_fields env status agent notes :
  let u := ha_task_status_updateData env status agent notes in
  Task.u_status u = Some status
  ∧ Task.u_started_at u =
      (if decide (status = in_progress) then Some (Some (now env)) else None)
  ∧ Task.u_completed_at u =
      (if decide (status = done) then Some (Some (now env)) else None)
  ∧ Task.u_blocker_reason u =
      (if decide (status = blocked)
       then match notes with
            | Some n => if truthy n then Some (Some n) else None
            | None => None
            end
       else Some None)
  ∧ Task.u_updated_by u = Some (Some (agent ?? str "system")).
Proof.
  unfold ha_task_status_updateData.
  destruct status, notes as [[|c n]|]; simpl; done.
Qed.

(** A conditional assignment to another property does not change the
    property read. *)
Local Ltac skip_assignment :=
  lazymatch goal with
  | |- ?proj (match ?o with Some _ => _ | None => ?u end) = _ =>
      transitivity (proj u);
      [first [by destruct o as [[|? ?]|] | by destruct o] | ]
  end.

Lemma ha_task_update_updateData_fields env updated_by title description status
    priority team agent estimated_hours actual_hours :
  let u := ha_task_update_updateData env updated_by title description
             (Some status) priority team agent estimated_hours actual_hours in
  Task.u_status u = Some status
  ∧ Task.u_started_at u =
      (if decide (status = in_progress) then Some (Some (now env)) else None)
  ∧ Task.u_completed_at u =
      (if decide (status = done) then Some (Some (now env)) else None)
  ∧ Task.u_blocker_reason u = None
  ∧ Task.u_updated_by u = Some (Some (updated_by ?? str "system")).
Proof.
  unfold ha_task_update_updateData. cbv zeta.
  repeat apply conj; do 5 skip_assignment; destruct status; simpl;
    repeat skip_assignment; reflexivity.
Qed.

(** ** Task lifecycle *)

(** C2 (as amended).  Every write of status [in_progress], by
    [ha_task_status] or by [ha_task_update] with a status in the patch,
    sets [started_at] to the current time, and every write of status
    [done] sets [completed_at] to the current time, whether or not the
    column already held a time; a write of any other status leaves the
    two columns as they were. *)
Theorem lifecycle_timestamps_stamped_on_every_entry
    env st task_id k status agent notes
    updated_by title description priority team agent' estimated_hours actual_hours :
  tasks st !! task_id = Some k →
  entity_fault env = None →
  ∃ k1 k2,
    tasks (ha_task_status env task_id status agent notes st).1 !! task_id = Some k1
    ∧ tasks (ha_task_update env task_id updated_by title description (Some status)
               priority team agent' estimated_hours actual_hours st).1 !! task_id
      = Some k2
    ∧ Task.started_at k1 =
        (if decide (status = in_progress) then Some (now env) else Task.started_at k)
    ∧ Task.started_at k2 =
        (if decide (status = in_progress) then Some (now env) else Task.started_at k)
    ∧ Task.completed_at k1 =
        (if decide (status = done) then Some (now env) else Task.completed_at k)
    ∧ Task.completed_at k2 =
        (if decide (status = done) then Some (now env) else Task.completed_at k).
Proof.
  intros Hk Hf.
  destruct (ha_task_status_updateData_fields env status agent notes)
    as (_ & Hs1 & Hc1 & _).
  destruct (ha_task_update_updateData_fields env updated_by title description
              status priority team agent' estimated_hours actual_hours)
    as (_ & Hs2 & Hc2 & _).
  eexists _, _. split; [by apply ha_task_status_row|].
  split; [rewrite (ha_task_update_run _ _ _ _ _ _ _ _ _ _ _ k) by done;
          apply lookup_insert_eq|].
  unfold Task.apply; simpl. rewrite Hs1, Hs2, Hc1, Hc2.
  repeat apply conj; by destruct status.
Qed.

(** C4 (as amended).  For a patch that includes [status],
    [ha_task_update] writes that status and applies the same time-stamp
    side effects as [ha_task_status] for it ([started_at] on
    [in_progress], [completed_at] on [done]); it takes no notes, so on
    [blocked] it leaves [blocker_reason] as it was; and it inserts no
    activity row, while [ha_task_status] logs the action
    [task_<status>]. *)
Theorem update_with_status_same_timestamps_no_event
    env st task_id k status agent notes
    updated_by title description priority team agent' estimated_hours actual_hours :
  tasks st !! task_id = Some k →
  entity_fault env = None →
  let by_status := (ha_task_status env task_id status agent notes st).1 in
  let by_update :=
    (ha_task_update env task_id updated_by title description (Some status)
       priority team agent' estimated_hours actual_hours st).1 in
  ∃ k1 k2,
    tasks by_status !! task_id = Some k1
    ∧ tasks by_update !! task_id = Some k2
    ∧ Task.status k1 = status ∧ Task.status k2 = status
    ∧ Task.started_at k2 = Task.started_at k1
    ∧ Task.completed_at k2 = Task.completed_at k1
    ∧ (status = blocked → Task.blocker_reason k2 = Task.blocker_reason k)
    ∧ activity_log by_update = activity_log st
    ∧ (log_fault env = None →
       ∃ row, activity_log by_status = activity_log st ++ [row]
              ∧ ActivityLog.action row = str "task_" ++ TaskStatus_name status).
Proof.
  intros Hk Hf by_status by_update.
  destruct (ha_task_status_updateData_fields env status agent notes)
    as (Ht1 & Hs1 & Hc1 & _).
  destruct (ha_task_update_updateData_fields env updated_by title description
              status priority team agent' estimated_hours actual_hours)
    as (Ht2 & Hs2 & Hc2 & Hb2 & _).
  eexists _, _. split; [by apply ha_task_status_row|].
  subst by_update.
  rewrite (ha_task_update_run _ _ _ _ _ _ _ _ _ _ _ k) by done.
  split; [apply lookup_insert_eq|].
  unfold Task.apply; simpl. rewrite Ht1, Ht2, Hs1, Hs2, Hc1, Hc2, Hb2. simpl.
  repeat apply conj; try done.
  intros Hl. subst by_status. unfold ha_task_status, bind. rewrite Hf.
  rewrite (update_task_run _ _ k) by done. simpl.
  rewrite logActivity_run, Hl. simpl. by eexists.
Qed.

(** C10.  [ha_task_assign] called without [agent] assigns [null] to
    [assigned_agent] (the property is set, not left out of the update),
    so the row ends with no assigned agent whatever it held before, and
    [updated_by] becomes ["system"]. *)
Theorem assign_without_agent_clears_agent env st task_id team k :
  tasks st !! task_id = Some k →
  entity_fault env = None →
  Task.u_assigned_agent (ha_task_assign_updateData team None) = Some None
  ∧ ∃ k',
      tasks (ha_task_assign env task_id team None st).1 !! task_id = Some k'
      ∧ Task.assigned_agent k' = None
      ∧ Task.updated_by k' = Some (str "system").
Proof.
  intros Hk Hf. split; [done|].
  eexists. split; [by apply ha_task_assign_row|]. done.
Qed.

(** ** Activity logging *)

(** What the activity row of a call is scoped to, given the entity the
    call returned and the store it left.  Project tools log the project's
    id and no team or related id.  Task tools log the task's project, the
    task's id as related id, and a team: [ha_task_status] the team stored
    in the task row; [ha_task_create] and [ha_task_assign] the [team]
    argument as the caller wrote it, which is the stored team before
    lower-casing. *)
Definition logged_for (c : ToolCall) (r : Entity) (st' : Store)
    (row : ActivityLog.t) : Prop :=
  match c, r with
  | Call_project_create _ _ _ _, AProject (Some p) =>
      projects st' !! Project.id p = Some p
      ∧ ActivityLog.project_id row = Some (Project.id p)
      ∧ ActivityLog.team row = None
      ∧ ActivityLog.related_id row = None
  | Call_project_update project_id _ _ _ _, AProject (Some p) =>
      projects st' !! project_id = Some p
      ∧ ActivityLog.project_id row = Some project_id
      ∧ ActivityLog.team row = None
      ∧ ActivityLog.related_id row = None
  | Call_task_create _ _ _ team _ _ _ _ _, ATask k =>
      tasks st' !! Task.id k = Some k
      ∧ ActivityLog.project_id row = Some (Task.project_id k)
      ∧ ActivityLog.related_id row = Some (Task.id k)
      ∧ ActivityLog.team row = team
      ∧ Task.assigned_team k = toLowerCase <$> ActivityLog.team row
  | Call_task_assign task_id team _, ATask k =>
      tasks st' !! task_id = Some k
      ∧ ActivityLog.project_id row = Some (Task.project_id k)
      ∧ ActivityLog.related_id row = Some task_id
      ∧ ActivityLog.team row = Some team
      ∧ Task.assigned_team k = toLowerCase <$> ActivityLog.team row
  | Call_task_status task_id _ _ _, ATask k =>
      tasks st' !! task_id = Some k
      ∧ ActivityLog.project_id row = Some (Task.project_id k)
      ∧ ActivityLog.related_id row = Some task_id
      ∧ ActivityLog.team row = Task.assigned_team k
  | _, _ => False
  end.

(** The entity write of a call goes through: the store raises no fault,
    the id of a new row is free, the row to update exists. *)
Definition entity_write_ok (env : Env) (c : ToolCall) (st : Store) : Prop :=
  entity_fault env = None
  ∧ match c with
    | Call_project_create _ _ _ _ => projects st !! new_id env = None
    | Call_project_update project_id _ _ _ _ => is_Some (projects st !! project_id)
    | Call_task_create _ _ _ _ _ _ _ _ _ => tasks st !! new_id env = None
    | Call_task_assign task_id _ _ => is_Some (tasks st !! task_id)
    | Call_task_status task_id _ _ _ => is_Some (tasks st !! task_id)
    end.

(** The row the call wrote is in the store [st']. *)
Definition entity_kept (env : Env) (c : ToolCall) (st st' : Store) : Prop :=
  match c with
  | Call_project_create name _ _ _ =>
      ∃ p, projects st' !! new_id env = Some p
           ∧ Project.name p = name
           ∧ Project.slug p = generateSlug name
           ∧ Project.status p = planning
  | Call_project_update project_id name description status settings =>
      ∃ p, projects st !! project_id = Some p
           ∧ projects st' !! project_id =
               Some (Project.apply
                       (ha_project_update_updateData name description status settings) p)
  | Call_task_create project_id title _ _ _ _ _ _ _ =>
      ∃ k, tasks st' !! new_id env = Some k
           ∧ Task.project_id k = project_id
           ∧ Task.title k = title
           ∧ Task.status k = backlog
  | Call_task_assign task_id team agent =>
      ∃ k, tasks st !! task_id = Some k
           ∧ tasks st' !! task_id =
               Some (Task.apply (ha_task_assign_updateData team agent) k)
  | Call_task_status task_id status agent notes =>
      ∃ k, tasks st !! task_id = Some k
           ∧ tasks st' !! task_id =
               Some (Task.apply (ha_task_status_updateData env status agent notes) k)
  end.

(** The same environment with the activity insert going through. *)
Definition without_log_fault (env : Env) : Env :=
  mkEnv (now env) (new_id env) (log_id env) (entity_fault env) None.

Local Ltac run_call :=
  unfold call_tool, ha_project_create, ha_project_update, ha_task_create,
    ha_task_assign, ha_task_status, bind, insert_project, update_project,
    insert_task, update_task, non_null, ret, throw; simpl.

(** C7 (as amended).  A call to one of the five logging tools that
    returns has appended exactly one row to the activity log, and the row
    is scoped to the entity as [logged_for] says: the project id of the
    entity, for a task the task's id as related id, and the team with
    the letter case the caller gave it for create and assign. *)
Theorem logged_call_appends_one_scoped_row env c st st' r :
  call_tool env c st = (st', Returned r) →
  ∃ row, activity_log st' = activity_log st ++ [row] ∧ logged_for c r st' row.
Proof.
  destruct c; run_call; destruct (entity_fault env); simpl;
    try (intros [= <- <-] || discriminate).
  - destruct (projects st !! new_id env) eqn:Hp; simpl; [discriminate|].
    rewrite logActivity_run. destruct (log_fault env); simpl; [discriminate|].
    intros [= <- <-]. eexists. split; [done|]. simpl.
    by rewrite lookup_insert_eq.
  - destruct (projects st !! project_id) eqn:Hp; simpl; [|discriminate].
    rewrite logActivity_run. destruct (log_fault env); simpl; [discriminate|].
    intros [= <- <-]. eexists. split; [done|]. simpl.
    by rewrite lookup_insert_eq.
  - destruct (tasks st !! new_id env) eqn:Hp; simpl; [discriminate|].
    rewrite logActivity_run. destruct (log_fault env); simpl; [discriminate|].
    intros [= <- <-]. eexists. split; [done|]. simpl.
    by rewrite lookup_insert_eq.
  - destruct (tasks st !! task_id) eqn:Hp; simpl; [|discriminate].
    rewrite logActivity_run. destruct (log_fault env); simpl; [discriminate|].
    intros [= <- <-]. eexists. split; [done|]. simpl.
    by rewrite lookup_insert_eq.
  - destruct (tasks st !! task_id) eqn:Hp; simpl; [|discriminate].
    rewrite logActivity_run. destruct (log_fault env); simpl; [discriminate|].
    intros [= <- <-]. eexists. split; [done|]. simpl.
    rewrite lookup_insert_eq. repeat apply conj; done.
Qed.

(** C8.  When the entity write of a logging tool goes through and the
    insert into [activity_log] is answered with an error, the call throws
    what [handleError] throws for that error, no activity row is added,
    and the entity row stays written: the project and task tables are
    those the same call leaves when the log insert succeeds. *)
Theorem failed_log_fails_call_keeps_entity env c st e :
  entity_write_ok env c st →
  log_fault env = Some e →
  let st' := (call_tool env c st).1 in
  (call_tool env c st).2 = Threw (thrown_by_handleError e)
  ∧ activity_log st' = activity_log st
  ∧ entity_kept env c st st'
  ∧ projects st' = projects (call_tool (without_log_fault env) c st).1
  ∧ tasks st' = tasks (call_tool (without_log_fault env) c st).1.
Proof.
  intros [Hf Hrow] Hl.
  destruct c; run_call; rewrite Hf; simpl in *.
  - rewrite Hrow; simpl. rewrite !logActivity_run, Hl; simpl.
    repeat apply conj; try done. eexists. by rewrite lookup_insert_eq.
  - destruct Hrow as [p Hp]. rewrite Hp; simpl. rewrite !logActivity_run, Hl; simpl.
    repeat apply conj; try done. eexists. by rewrite lookup_insert_eq.
  - rewrite Hrow; simpl. rewrite !logActivity_run, Hl; simpl.
    repeat apply conj; try done. eexists. by rewrite lookup_insert_eq.
  - destruct Hrow as [k Hk]. rewrite Hk; simpl. rewrite !logActivity_run, Hl; simpl.
    repeat apply conj; try done. eexists. by rewrite lookup_insert_eq.
  - destruct Hrow as [k Hk]. rewrite Hk; simpl. rewrite !logActivity_run, Hl; simpl.
    repeat apply conj; try done. eexists. by rewrite lookup_insert_eq.
Qed.

(** ** Task lists *)

(** Modelled from the spec: the database schema, which declares the
    type of the [priority] column of [tasks] and with it the order that
    [order('priority')] sorts in, is not among the source files; they
    have only the type [PriorityLevel] of its values.  The spec has
    [priority] as a four-level enum under the total order
    [critical < high < medium < low]; [enum_rank] is the position of a
    level in that order. *)
Definition enum_rank (p : PriorityLevel) : nat :=
  match p with critical => 0 | high => 1 | medium => 2 | low => 3 end.

(** The order of the specification: priority ascending in the
    enumeration, and among tasks of one priority the one created later
    first. *)
Definition by_priority_then_recency (a b : Task.t) : Prop :=
  enum_rank (Task.priority a) < enum_rank (Task.priority b)
  ∨ (Task.priority a = Task.priority b
     ∧ (Task.created_at b ≤ Task.created_at a)%Z).

Global Instance priority_then_newest_total : Total priority_then_newest.
Proof. intros a b. unfold priority_then_newest. lia. Qed.

Global Instance priority_then_newest_trans : Transitive priority_then_newest.
Proof. intros a b c. unfold priority_then_newest. lia. Qed.

Lemma select_tasks_sorted where_ st :
  ∃ rows,
    select_tasks None where_ priority_then_newest st = (st, Returned (ok rows))
    ∧ StronglySorted priority_then_newest rows
    ∧ rows ≡ₚ List.filter where_ (map_to_list (tasks st)).*2.
Proof.
  eexists. split; [reflexivity|]. split.
  - apply StronglySorted_merge_sort; apply _.
  - apply merge_sort_Permutation.
Qed.

(** When the store orders the priority column as the enumeration does,
    its order is the order of the specification. *)
Lemma column_order_is_enum_order a b :
  priority_column_rank critical < priority_column_rank high →
  priority_column_rank high < priority_column_rank medium →
  priority_column_rank medium < priority_column_rank low →
  priority_then_newest a b → by_priority_then_recency a b.
Proof.
  unfold priority_then_newest, by_priority_then_recency.
  intros H1 H2 H3.
  destruct (Task.priority a), (Task.priority b); simpl; intros [?|[? ?]];
    first [left; lia | right; split; [reflexivity | assumption] | exfalso; lia].
Qed.

(** On the code alone: whatever order the store has on the priority
    column, [ha_task_my_tasks] and [ha_task_team_tasks] return exactly
    the rows they ask for, sorted in that order and, within a priority,
    by creation time descending. *)
Lemma task_lists_in_column_order env st agent team include_done :
  entity_fault env = None →
  ∃ mine theirs,
    ha_task_my_tasks env agent include_done st = (st, Returned mine)
    ∧ ha_task_team_tasks env team include_done st = (st, Returned theirs)
    ∧ StronglySorted priority_then_newest mine
    ∧ StronglySorted priority_then_newest theirs
    ∧ mine ≡ₚ List.filter (my_tasks_where agent include_done)
                (map_to_list (tasks st)).*2
    ∧ theirs ≡ₚ List.filter (team_tasks_where team include_done)
                  (map_to_list (tasks st)).*2.
Proof.
  intros Hf.
  destruct (select_tasks_sorted (my_tasks_where agent include_done) st)
    as (mine & Hm & Hms & Hmp).
  destruct (select_tasks_sorted (team_tasks_where team include_done) st)
    as (theirs & Ht & Hts & Htp).
  exists mine, theirs.
  repeat apply conj; auto.
  - unfold ha_task_my_tasks, bind. by rewrite Hf, Hm.
  - unfold ha_task_team_tasks, bind. by rewrite Hf, Ht.
Qed.

(** ** Dashboard *)


(** The dedicated status setter does clear [blocker_reason] on every
    status other than [blocked]. *)
Lemma ha_task_status_clears_blocker_reason env st task_id k status agent notes :
  tasks st !! task_id = Some k →
  entity_fault env = None →
  status ≠ blocked →
  Task.blocker_reason <$>
    tasks (ha_task_status env task_id status agent notes st).1 !! task_id
  = Some None.
Proof.
  intros Hk Hf Hs. rewrite (ha_task_status_row _ _ _ _ _ k) by done. simpl.
  destruct (ha_task_status_updateData_fields env status agent notes)
    as (_ & _ & _ & -> & _).
  by destruct (decide (status = blocked)).
Qed.

(** * Further properties *)

(** ** The slug, continued *)

(** X1.  Whatever the name, and whatever [toLowerCase] does, the slug
    consists of units of [[a-z0-9-]] only and never contains two hyphens
    in a row. *)
Theorem generateSlug_alphabet_and_single_hyphens name :
  Forall (λ c, is_slug_unit c = true) (generateSlug name)
  ∧ ∀ pre post, generateSlug name ≠ pre ++ hyphen :: hyphen :: post.
Proof.
  split; [apply generateSlug_slug_units|].
  apply hyphens_single_no_pair, generateSlug_hyphens_single.
Qed.

Lemma replace_runs_head p by_ s :
  head (replace_runs p by_ false s) =
  (λ c, if p c then by_ else c) <$> head s.
Proof. destruct s as [|c r]; simpl; [done|]. by destruct (p c). Qed.

(** X2.  The slug begins with a hyphen exactly when the first unit of
    the lower-cased name that survives the deletion of foreign
    characters is white space or a hyphen: [trim] removes nothing, so a
    name with leading white space gets a slug with a leading hyphen. *)
Theorem generateSlug_leading_hyphen name :
  starts_with_hyphen (generateSlug name) =
  match remove_outside_class (toLowerCase name) with
  | c :: _ => is_space c || is_hyphen c
  | [] => false
  end.
Proof.
  rewrite generateSlug_replaced. unfold replaced.
  pose proof (remove_outside_class_kept (toLowerCase name)) as Hk.
  destruct (remove_outside_class (toLowerCase name)) as [|c r]; [done|].
  simpl. destruct (is_space c) eqn:Hs; simpl.
  - done.
  - destruct (is_hyphen c) eqn:Hh; simpl; [done|]. by rewrite Hh.
Qed.

Lemma replace_runs_nil p by_ s : replace_runs p by_ false s = [] ↔ s = [].
Proof.
  split; [|by intros ->].
  destruct s as [|c r]; simpl; [done|]. by destruct (p c).
Qed.

(** X3.  The slug is empty exactly when no unit of the lower-cased name
    is a lower-case letter, a digit, white space or a hyphen: a name
    made of punctuation only has the empty slug. *)
Theorem generateSlug_empty_iff name :
  generateSlug name = []
  ↔ Forall (λ c, in_kept_class c = false) (toLowerCase name).
Proof.
  rewrite generateSlug_replaced. unfold replaced.
  rewrite !replace_runs_nil. unfold remove_outside_class.
  induction (toLowerCase name) as [|c r IH]; simpl.
  - split; [constructor|done].
  - destruct (in_kept_class c) eqn:Hc.
    + split; [done|]. inversion 1; congruence.
    + rewrite IH. split; [by constructor|]. by inversion 1.
Qed.

(** ** Identifiers *)

Abbreviation hex_digits := (Forall (λ c, is_hex_digit c = true)).

Lemma match_hex_spec n s r :
  match_hex n s = Some r ↔ ∃ h, s = h ++ r ∧ length h = n ∧ hex_digits h.
Proof.
  revert s. induction n as [|n IH]; intros s; simpl.
  - split.
    + intros [= ->]. by exists [].
    + intros (h & -> & Hl & _). by destruct h.
  - destruct s as [|c s'].
    + split; [done|]. intros (h & Hs & Hl & _). by destruct h.
    + destruct (is_hex_digit c) eqn:Hc.
      * rewrite IH. split.
        -- intros (h & -> & Hl & Hh). exists (c :: h). repeat split; simpl; auto.
        -- intros (h & Hs & Hl & Hh). destruct h as [|c' h]; [done|].
           simpl in *. injection Hs as -> ->. injection Hl as Hl.
           exists h. inversion Hh; subst. done.
      * split; [done|]. intros (h & Hs & Hl & Hh). destruct h as [|c' h]; [done|].
        simpl in Hs. injection Hs as -> ->. inversion Hh; congruence.
Qed.

Lemma match_hyphen_spec s r : match_hyphen s = Some r ↔ s = hyphen :: r.
Proof.
  destruct s as [|c s']; simpl; [done|].
  destruct (is_hyphen c) eqn:Hc.
  - rewrite (is_hyphen_eq c Hc). split; congruence.
  - split; [done|]. intros [= -> ->]. done.
Qed.

(** X4.  [isUuid] accepts exactly the strings made of five groups of 8,
    4, 4, 4 and 12 hexadecimal digits, of either case, joined by single
    hyphens; nothing may precede or follow. *)
Theorem isUuid_shape s :
  isUuid s = true
  ↔ ∃ a b c d e,
      s = a ++ hyphen :: b ++ hyphen :: c ++ hyphen :: d ++ hyphen :: e
      ∧ length a = 8 ∧ length b = 4 ∧ length c = 4 ∧ length d = 4
      ∧ length e = 12
      ∧ hex_digits a ∧ hex_digits b ∧ hex_digits c ∧ hex_digits d
      ∧ hex_digits e.
Proof.
  unfold isUuid. cbv zeta. split.
  - intros H.
    match type of H with
    | match ?o with _ => _ end = true => assert (E : o = Some []) by
        (destruct o as [[|? ?]|]; done)
    end.
    clear H.
    apply bind_Some in E as (r8 & E & E9).
    apply bind_Some in E as (r7 & E & E8).
    apply bind_Some in E as (r6 & E & E7).
    apply bind_Some in E as (r5 & E & E6).
    apply bind_Some in E as (r4 & E & E5).
    apply bind_Some in E as (r3 & E & E4).
    apply bind_Some in E as (r2 & E & E3).
    apply bind_Some in E as (r1 & E1 & E2).
    apply match_hex_spec in E1 as (a & -> & ? & ?).
    apply match_hyphen_spec in E2 as ->.
    apply match_hex_spec in E3 as (b & -> & ? & ?).
    apply match_hyphen_spec in E4 as ->.
    apply match_hex_spec in E5 as (c & -> & ? & ?).
    apply match_hyphen_spec in E6 as ->.
    apply match_hex_spec in E7 as (d & -> & ? & ?).
    apply match_hyphen_spec in E8 as ->.
    apply match_hex_spec in E9 as (e & -> & ? & ?).
    exists a, b, c, d, e. rewrite app_nil_r. repeat split; done.
  - intros (a & b & c & d & e & -> & Ha & Hb & Hc & Hd & He & ? & ? & ? & ? & ?).
    assert (M1 : match_hex 8
              (a ++ hyphen :: b ++ hyphen :: c ++ hyphen :: d ++ hyphen :: e)
            = Some (hyphen :: b ++ hyphen :: c ++ hyphen :: d ++ hyphen :: e))
      by (apply match_hex_spec; eauto).
    assert (M2 : match_hex 4 (b ++ hyphen :: c ++ hyphen :: d ++ hyphen :: e)
            = Some (hyphen :: c ++ hyphen :: d ++ hyphen :: e))
      by (apply match_hex_spec; eauto).
    assert (M3 : match_hex 4 (c ++ hyphen :: d ++ hyphen :: e)
            = Some (hyphen :: d ++ hyphen :: e))
      by (apply match_hex_spec; eauto).
    assert (M4 : match_hex 4 (d ++ hyphen :: e) = Some (hyphen :: e))
      by (apply match_hex_spec; eauto).
    assert (M5 : match_hex 12 e = Some [])
      by (apply match_hex_spec; exists e; by rewrite app_nil_r).
    assert (Hh : ∀ r, match_hyphen (hyphen :: r) = Some r) by done.
    rewrite M1. cbn [mbind option_bind]. rewrite Hh.
    cbn [mbind option_bind]. rewrite M2. cbn [mbind option_bind]. rewrite Hh.
    cbn [mbind option_bind]. rewrite M3. cbn [mbind option_bind]. rewrite Hh.
    cbn [mbind option_bind]. rewrite M4. cbn [mbind option_bind]. rewrite Hh.
    cbn [mbind option_bind]. by rewrite M5.
Qed.

(** ** Rows of a table *)

Lemma List_filter_Permutation {A} (f : A → bool) (l l' : list A) :
  l ≡ₚ l' → List.filter f l ≡ₚ List.filter f l'.
Proof.
  induction 1 as [|x l l' _ IH|x y l|l l' l'' _ IH1 _ IH2]; simpl.
  - done.
  - destruct (f x); by rewrite IH.
  - destruct (f x), (f y); try done. apply perm_swap.
  - by etrans.
Qed.

Lemma List_filter_elem_of {A} (f : A → bool) (l : list A) x :
  x ∈ List.filter f l ↔ x ∈ l ∧ f x = true.
Proof. rewrite !list_elem_of_In. apply filter_In. Qed.

Lemma List_filter_Forall {A} (f : A → bool) (l : list A) :
  Forall (λ x, f x = true) (List.filter f l).
Proof. apply Forall_forall. intros x. rewrite List_filter_elem_of. tauto. Qed.

Lemma List_filter_NoDup {A} (f : A → bool) (l : list A) :
  NoDup l → NoDup (List.filter f l).
Proof.
  induction 1 as [|x l Hx _ IH]; simpl; [constructor|].
  destruct (f x); [|done]. constructor; [|done].
  rewrite List_filter_elem_of. tauto.
Qed.

Lemma List_filter_fmap {A B} (g : A → B) (f : B → bool) (l : list A) :
  List.filter f (g <$> l) = g <$> List.filter (λ x, f (g x)) l.
Proof.
  induction l as [|x l IH]; csimpl; [done|].
  destruct (f (g x)); csimpl; by rewrite IH.
Qed.

(** In a list without duplicates, the rows that pass a test only [a]
    passes are [a] alone. *)
Lemma List_filter_unique {A} (f : A → bool) (l : list A) a :
  NoDup l → a ∈ l → f a = true → (∀ x, x ∈ l → f x = true → x = a) →
  List.filter f l = [a].
Proof.
  induction 1 as [|x l Hx Hl IH]; intros Ha Hf Hu; [by inv Ha|].
  simpl. destruct (f x) eqn:Hfx.
  - assert (x = a) as -> by (apply Hu; [left|done]).
    f_equal. clear IH Ha. induction l as [|y l IH]; simpl; [done|].
    destruct (f y) eqn:Hfy.
    + exfalso. apply Hx. rewrite <- (Hu y); [left| by right; left |done].
    + apply IH.
      * intros Hin. apply Hx. by right.
      * by inv Hl.
      * intros z Hz. apply Hu. inv Hz; [left|right; by right].
  - apply IH; [|done|].
    + inv Ha; [congruence|done].
    + intros z Hz. apply Hu. by right.
Qed.

Lemma elem_of_project_rows st p :
  p ∈ project_rows st ↔ ∃ id, projects st !! id = Some p.
Proof.
  unfold project_rows. rewrite list_elem_of_fmap. split.
  - intros ([id q] & -> & Hin). exists id. by apply elem_of_map_to_list.
  - intros (id & Hid). exists (id, p). split; [done|]. by apply elem_of_map_to_list.
Qed.

Lemma elem_of_task_rows st k :
  k ∈ task_rows st ↔ ∃ id, tasks st !! id = Some k.
Proof.
  unfold task_rows. rewrite list_elem_of_fmap. split.
  - intros ([id q] & -> & Hin). exists id. by apply elem_of_map_to_list.
  - intros (id & Hid). exists (id, k). split; [done|]. by apply elem_of_map_to_list.
Qed.

(** ** [ha_project_get] *)

(** X5.  An identifier of the shape of a UUID is looked up in the [id]
    column only: the call returns the row under that id and throws
    "Project not found" when there is none, even if a project has the
    identifier as its slug. *)
Theorem ha_project_get_uuid_shaped_by_id_only env identifier st :
  entity_fault env = None →
  isUuid identifier = true →
  ha_project_get env identifier st =
  (st, match projects st !! identifier with
       | Some p => Returned (Some p)
       | None => Threw (Error_ (str "Project not found: " ++ message no_rows))
       end).
Proof.
  intros Hf Hu. unfold ha_project_get, bind, select_project.
  rewrite Hu, Hf. by destruct (projects st !! identifier).
Qed.

(** X6.  An identifier of any other shape is looked up in the [slug]
    column: the call returns the project that has this slug when exactly
    one has it. *)
Theorem ha_project_get_by_unique_slug env identifier st id p :
  entity_fault env = None →
  isUuid identifier = false →
  projects st !! id = Some p →
  Project.slug p = identifier →
  (∀ id' q, projects st !! id' = Some q → Project.slug q = identifier → id' = id) →
  ha_project_get env identifier st = (st, Returned (Some p)).
Proof.
  intros Hf Hu Hp Hs Huniq. unfold ha_project_get, bind, select_project_by_slug.
  rewrite Hu, Hf. unfold project_rows. rewrite List_filter_fmap.
  rewrite (List_filter_unique _ _ (id, p)); [done| | | |].
  - apply NoDup_map_to_list.
  - by apply elem_of_map_to_list.
  - simpl. by apply bool_decide_eq_true.
  - intros [id' q] Hin Hq. apply elem_of_map_to_list in Hin.
    simpl in Hq. apply bool_decide_eq_true in Hq.
    assert (id' = id) as -> by eauto. congruence.
Qed.

(** X7.  The slug lookup fails with "Project not found" when no project
    has the slug, and also when two projects share it. *)
Theorem ha_project_get_slug_absent_or_shared env identifier st :
  entity_fault env = None →
  isUuid identifier = false →
  (∀ id q, projects st !! id = Some q → Project.slug q ≠ identifier)
  ∨ (∃ id1 id2 q1 q2, id1 ≠ id2
       ∧ projects st !! id1 = Some q1 ∧ projects st !! id2 = Some q2
       ∧ Project.slug q1 = identifier ∧ Project.slug q2 = identifier) →
  ha_project_get env identifier st =
  (st, Threw (Error_ (str "Project not found: " ++ message no_rows))).
Proof.
  intros Hf Hu Hcase. unfold ha_project_get, bind, select_project_by_slug.
  rewrite Hu, Hf. unfold project_rows. rewrite List_filter_fmap.
  destruct (List.filter _ (map_to_list (projects st))) as [|[i a] [|b l]] eqn:E;
    [done| |done].
  exfalso. destruct Hcase as [Hnone|(id1 & id2 & q1 & q2 & Hne & H1 & H2 & S1 & S2)].
  - assert (Hin : (i, a) ∈ List.filter
                    (λ x : jsstring * Project.t,
                       bool_decide (Project.slug x.2 = identifier))
                    (map_to_list (projects st))) by (rewrite E; left).
    apply List_filter_elem_of in Hin as [Hin Hs].
    apply elem_of_map_to_list in Hin. apply bool_decide_eq_true in Hs.
    by eapply Hnone.
  - assert (Hin : ∀ j q, projects st !! j = Some q → Project.slug q = identifier →
                         (j, q) ∈ [(i, a)]).
    { intros j q Hj Hq. rewrite <- E. apply List_filter_elem_of. split.
      - by apply elem_of_map_to_list.
      - by apply bool_decide_eq_true. }
    pose proof (Hin _ _ H1 S1) as E1. pose proof (Hin _ _ H2 S2) as E2.
    apply list_elem_of_singleton in E1, E2. congruence.
Qed.

Lemma ha_project_create_run env name description template autonomous st st' p :
  ha_project_create env name description template autonomous st
  = (st', Returned p) →
  projects st !! new_id env = None
  ∧ Project.id p = new_id env
  ∧ Project.name p = name
  ∧ Project.slug p = generateSlug name
  ∧ projects st' = <[new_id env := p]> (projects st)
  ∧ tasks st' = tasks st.
Proof.
  unfold ha_project_create, bind, insert_project, non_null, ret, throw. simpl.
  destruct (entity_fault env); simpl; [discriminate|].
  destruct (projects st !! new_id env) eqn:Hp; simpl; [discriminate|].
  rewrite logActivity_run. destruct (log_fault env); simpl; [discriminate|].
  by intros [= <- <-].
Qed.

(** X8.  A project that was just created is found again by the slug of
    its name, provided that slug is not of the shape of a UUID and no
    other project has it. *)
Theorem created_project_found_by_slug
    env env' name description template autonomous st st' p :
  ha_project_create env name description template autonomous st
  = (st', Returned p) →
  entity_fault env' = None →
  isUuid (generateSlug name) = false →
  (∀ id q, projects st !! id = Some q → Project.slug q ≠ generateSlug name) →
  ha_project_get env' (generateSlug name) st' = (st', Returned (Some p)).
Proof.
  intros Hrun Hf Hu Hfree.
  apply ha_project_create_run in Hrun as (Hnew & _ & _ & Hslug & Hps & _).
  apply (ha_project_get_by_unique_slug env' _ st' (new_id env) p); try done.
  - rewrite Hps. apply lookup_insert_eq.
  - intros id' q. rewrite Hps. rewrite lookup_insert.
    case_decide; [done|]. intros Hq Hs. by destruct (Hfree _ _ Hq).
Qed.

(** ** Invariants of the store *)

(** Every project's slug is the slug of its name. *)
Definition slugs_derived (st : Store) : Prop :=
  ∀ id p, projects st !! id = Some p →
          Project.slug p = generateSlug (Project.name p).

Lemma ha_project_update_updateData_name name description status settings :
  let u := ha_project_update_updateData name description status settings in
  match name with
  | Some n =>
      if truthy n
      then Project.u_name u = Some n ∧ Project.u_slug u = Some (generateSlug n)
      else Project.u_name u = None ∧ Project.u_slug u = None
  | None => Project.u_name u = None ∧ Project.u_slug u = None
  end.
Proof.
  unfold ha_project_update_updateData.
  destruct name as [[|? ?]|], description, status, settings; by simpl.
Qed.

(** X9.  The five logging tools keep the slug of every project equal to
    the slug of its name: [ha_project_create] derives it, and
    [ha_project_update] rewrites it whenever it rewrites the name and
    leaves both alone when the name is absent or empty. *)
Theorem slug_follows_name_invariant env c st :
  slugs_derived st → slugs_derived (call_tool env c st).1.
Proof.
  unfold slugs_derived. intros Hinv.
  destruct c; run_call; destruct (entity_fault env); simpl; try done.
  - destruct (projects st !! new_id env) eqn:Hp; simpl; [done|].
    rewrite logActivity_run. destruct (log_fault env); simpl;
      intros id p; rewrite lookup_insert; case_decide; eauto; by intros [= <-].
  - destruct (projects st !! project_id) as [p0|] eqn:Hp; simpl; [|done].
    pose proof (ha_project_update_updateData_name name description status settings)
      as Hu. simpl in Hu.
    rewrite logActivity_run. destruct (log_fault env); simpl;
      intros id p; rewrite lookup_insert; case_decide; eauto; intros [= <-];
      unfold Project.apply; simpl;
      destruct name as [n|]; [destruct (truthy n)| | destruct (truthy n)|];
      destruct Hu as [-> ->]; simpl; eauto.
  - destruct (tasks st !! new_id env); simpl; [done|].
    rewrite logActivity_run. by destruct (log_fault env).
  - destruct (tasks st !! task_id); simpl; [|done].
    rewrite logActivity_run. by destruct (log_fault env).
  - destruct (tasks st !! task_id); simpl; [|done].
    rewrite logActivity_run. by destruct (log_fault env).
Qed.

(** Every assigned team and agent is a fixed point of [toLowerCase]. *)
Definition assignees_lower_case (st : Store) : Prop :=
  ∀ id k, tasks st !! id = Some k →
          (∀ t, Task.assigned_team k = Some t → toLowerCase t = t)
          ∧ (∀ a, Task.assigned_agent k = Some a → toLowerCase a = a).

Local Ltac skip_assignment' :=
  lazymatch goal with
  | |- ?proj (match ?o with Some _ => _ | None => ?u end) = _ =>
      transitivity (proj u);
      [first [by destruct o as [[|? ?]|] | by destruct o as [[]|] | by destruct o] | ]
  end.

Lemma ha_task_update_updateData_assignees env updated_by title description
    status priority team agent estimated_hours actual_hours :
  let u := ha_task_update_updateData env updated_by title description status
             priority team agent estimated_hours actual_hours in
  Task.u_assigned_team u =
    match team with
    | Some v => if truthy v then Some (Some (toLowerCase v)) else None
    | None => None
    end
  ∧ Task.u_assigned_agent u =
    match agent with
    | Some v => if truthy v then Some (Some (toLowerCase v)) else None
    | None => None
    end.
Proof.
  unfold ha_task_update_updateData. cbv zeta. split.
  - do 3 skip_assignment'. destruct team as [[|? ?]|]; simpl;
      repeat skip_assignment'; reflexivity.
  - do 2 skip_assignment'. destruct agent as [[|? ?]|]; simpl;
      repeat skip_assignment'; reflexivity.
Qed.

Local Ltac lower_case_hyp :=
  repeat match goal with
         | H : toLowerCase <$> ?o = Some _ |- _ => destruct o; simplify_eq/=
         | H : Some _ = Some _ |- _ => simplify_eq/=
         end.

(** X10.  When [toLowerCase] is idempotent, the tools that write task
    rows keep every assigned team and agent in lower case: the five
    logging tools and [ha_task_update] store [toLowerCase] of what the
    caller gave, or leave the column alone. *)
Theorem assignees_lower_case_invariant env c st
    task_id' updated_by' title' description' status' priority' team' agent'
    estimated_hours' actual_hours' :
  (∀ s, toLowerCase (toLowerCase s) = toLowerCase s) →
  assignees_lower_case st →
  assignees_lower_case (call_tool env c st).1
  ∧ assignees_lower_case
      (ha_task_update env task_id' updated_by' title' description' status'
         priority' team' agent' estimated_hours' actual_hours' st).1.
Proof.
  unfold assignees_lower_case. intros Hidem Hinv. split.
  - destruct c; run_call; destruct (entity_fault env); simpl; try done.
    + destruct (projects st !! new_id env); simpl; [done|].
      rewrite logActivity_run. by destruct (log_fault env).
    + destruct (projects st !! project_id); simpl; [|done].
      rewrite logActivity_run. by destruct (log_fault env).
    + destruct (tasks st !! new_id env) eqn:Hk; simpl; [done|].
      rewrite logActivity_run. destruct (log_fault env); simpl;
        intros id k; rewrite lookup_insert; case_decide; eauto; intros [= <-];
        simpl; (split; intros x Hx); lower_case_hyp; eauto.
    + destruct (tasks st !! task_id) as [k0|] eqn:Hk; simpl; [|done].
      rewrite logActivity_run. destruct (log_fault env); simpl;
        intros id k; rewrite lookup_insert; case_decide; eauto; intros [= <-];
        simpl; (split; intros x Hx); lower_case_hyp; eauto.
    + destruct (tasks st !! task_id) as [k0|] eqn:Hk; simpl; [|done].
      assert (Hteam : Task.u_assigned_team
                        (ha_task_status_updateData env status agent notes) = None
                      ∧ Task.u_assigned_agent
                          (ha_task_status_updateData env status agent notes) = None).
      { unfold ha_task_status_updateData.
        destruct status, notes as [[|? ?]|]; by simpl. }
      destruct Hteam as [Ht Ha].
      rewrite logActivity_run. destruct (log_fault env); simpl;
        intros id k; rewrite lookup_insert; case_decide; eauto; intros [= <-];
        unfold Task.apply; simpl; rewrite Ht, Ha; simpl;
        subst; by apply (Hinv _ _ Hk).
  - unfold ha_task_update, bind, update_task.
    destruct (entity_fault env); simpl; [done|].
    destruct (tasks st !! task_id') as [k0|] eqn:Hk; simpl; [|done].
    destruct (ha_task_update_updateData_assignees env updated_by' title'
                description' status' priority' team' agent' estimated_hours'
                actual_hours') as [Ht Ha].
    intros id k. rewrite lookup_insert. case_decide; eauto. intros [= <-].
    unfold Task.apply; simpl. rewrite Ht, Ha. subst.
    destruct (Hinv _ _ Hk) as [Hkt Hka].
    split; intros x Hx.
    + destruct team' as [v|]; [destruct (truthy v)|]; simpl in Hx;
        simplify_eq; eauto.
    + destruct agent' as [v|]; [destruct (truthy v)|]; simpl in Hx;
        simplify_eq; eauto.
Qed.

(** ** What a task write leaves alone *)

(** X11.  The three tools that update a task ([ha_task_status],
    [ha_task_assign], [ha_task_update]) change at most the row under the
    given id: every other task row and the whole project table are as
    before, whatever the store answers. *)
Theorem task_updates_touch_one_row env st task_id other
    status agent notes team agent2
    updated_by title description status3 priority team3 agent3
    estimated_hours actual_hours :
  other ≠ task_id →
  let st1 := (ha_task_status env task_id status agent notes st).1 in
  let st2 := (ha_task_assign env task_id team agent2 st).1 in
  let st3 := (ha_task_update env task_id updated_by title description status3
                priority team3 agent3 estimated_hours actual_hours st).1 in
  (tasks st1 !! other = tasks st !! other ∧ projects st1 = projects st)
  ∧ (tasks st2 !! other = tasks st !! other ∧ projects st2 = projects st)
  ∧ (tasks st3 !! other = tasks st !! other ∧ projects st3 = projects st).
Proof.
  intros Hne. cbv zeta.
  unfold ha_task_status, ha_task_assign, ha_task_update, bind, update_task,
    non_null, ret, throw.
  destruct (entity_fault env); simpl; [done|].
  destruct (tasks st !! task_id); simpl; [|done].
  rewrite !logActivity_run. destruct (log_fault env); simpl;
    by rewrite !lookup_insert_ne.
Qed.

(** X12.  [ha_task_status] with the status [blocked] records the notes
    as [blocker_reason] when they are a non-empty string; without notes,
    or with empty notes, the reason the row already had is kept. *)
Theorem blocked_reason_from_notes_or_kept env st task_id k agent notes :
  tasks st !! task_id = Some k →
  entity_fault env = None →
  Task.blocker_reason <$>
    tasks (ha_task_status env task_id blocked agent notes st).1 !! task_id
  = Some match notes with
         | Some n => if truthy n then Some n else Task.blocker_reason k
         | None => Task.blocker_reason k
         end.
Proof.
  intros Hk Hf. rewrite (ha_task_status_row _ _ _ _ _ k) by done. simpl.
  destruct (ha_task_status_updateData_fields env blocked agent notes)
    as (_ & _ & _ & -> & _).
  simpl. by destruct notes as [[|? ?]|].
Qed.

(** ** A refused entity write *)

(** The error the store answers the entity write of a call with, if any:
    the fault it raises, a taken id on insert, a missing row on update. *)
Definition entity_write_error (env : Env) (c : ToolCall) (st : Store)
  : option StoreError :=
  match entity_fault env with
  | Some e => Some e
  | None =>
      match c with
      | Call_project_create _ _ _ _ =>
          match projects st !! new_id env with
          | Some _ => Some unique_violation
          | None => None
          end
      | Call_project_update project_id _ _ _ _ =>
          match projects st !! project_id with
          | Some _ => None
          | None => Some no_rows
          end
      | Call_task_create _ _ _ _ _ _ _ _ _ =>
          match tasks st !! new_id env with
          | Some _ => Some unique_violation
          | None => None
          end
      | Call_task_assign task_id _ _ | Call_task_status task_id _ _ _ =>
          match tasks st !! task_id with
          | Some _ => None
          | None => Some no_rows
          end
      end
  end.

(** The text each handler puts before the store's message. *)
Definition failure_prefix (c : ToolCall) : jsstring :=
  match c with
  | Call_project_create _ _ _ _ => str "Failed to create project: "
  | Call_project_update _ _ _ _ _ => str "Failed to update project: "
  | Call_task_create _ _ _ _ _ _ _ _ _ => str "Failed to create task: "
  | Call_task_assign _ _ _ => str "Failed to assign task: "
  | Call_task_status _ _ _ _ => str "Failed to update status: "
  end.

(** X13.  When the store answers the entity write of a logging tool with
    an error, the call throws an [Error] whose message is the handler's
    prefix followed by the store's message, and the store is exactly as
    before: no row is written and nothing is logged. *)
Theorem refused_entity_write_changes_nothing env c st e :
  entity_write_error env c st = Some e →
  call_tool env c st = (st, Threw (Error_ (failure_prefix c ++ message e))).
Proof.
  unfold entity_write_error.
  destruct c; run_call; destruct (entity_fault env); simpl;
    try (by intros [= ->]).
  - destruct (projects st !! new_id env); simpl; [by intros [= <-]|done].
  - destruct (projects st !! project_id); simpl; [done|by intros [= <-]].
  - destruct (tasks st !! new_id env); simpl; [by intros [= <-]|done].
  - destruct (tasks st !! task_id); simpl; [done|by intros [= <-]].
  - destruct (tasks st !! task_id); simpl; [done|by intros [= <-]].
Qed.

(** ** Listings *)

Global Instance recently_updated_first_total : Total recently_updated_first.
Proof. intros a b. unfold recently_updated_first. lia. Qed.
Global Instance recently_updated_first_trans : Transitive recently_updated_first.
Proof. intros a b c. unfold recently_updated_first. lia. Qed.
Global Instance newest_task_first_total : Total newest_task_first.
Proof. intros a b. unfold newest_task_first. lia. Qed.
Global Instance newest_task_first_trans : Transitive newest_task_first.
Proof. intros a b c. unfold newest_task_first. lia. Qed.
Global Instance newest_first_total : Total newest_first.
Proof. intros a b. unfold newest_first. lia. Qed.
Global Instance newest_first_trans : Transitive newest_first.
Proof. intros a b c. unfold newest_first. lia. Qed.

(** A page is the head of the matching rows put in order: with the rows
    it leaves out it makes up all matching rows, in order. *)
Lemma page_spec {A} (where_ : A → bool) (order : relation A)
    `{∀ x y, Decision (order x y)} `{!Transitive order, !Total order}
    (limit : nat) (rows : list A) :
  ∃ rest,
    page where_ order limit rows ++ rest ≡ₚ List.filter where_ rows
    ∧ StronglySorted order (page where_ order limit rows ++ rest)
    ∧ length (page where_ order limit rows)
      = limit `min` length (List.filter where_ rows).
Proof.
  unfold page.
  exists (drop limit (merge_sort order (List.filter where_ rows))).
  rewrite take_drop. repeat split.
  - apply merge_sort_Permutation.
  - by apply StronglySorted_merge_sort.
  - rewrite length_take. by rewrite (merge_sort_Permutation order).
Qed.

Lemma page_listing {A} (where_ : A → bool) (order : relation A)
    `{∀ x y, Decision (order x y)} `{!Transitive order, !Total order}
    (limit : nat) (rows : list A) (P : A → Prop) :
  (∀ x, where_ x = true ↔ P x) →
  ∃ rest,
    (∀ x, x ∈ page where_ order limit rows ++ rest ↔ x ∈ rows ∧ P x)
    ∧ length (page where_ order limit rows ++ rest)
      = length (List.filter where_ rows)
    ∧ StronglySorted order (page where_ order limit rows ++ rest)
    ∧ length (page where_ order limit rows)
      = limit `min` length (page where_ order limit rows ++ rest).
Proof.
  intros HP.
  destruct (page_spec where_ order limit rows) as (rest & Hp & Hs & Hl).
  exists rest. split; [|split; [|split]].
  - intros x. by rewrite Hp, List_filter_elem_of, HP.
  - by rewrite Hp.
  - done.
  - by rewrite Hl, Hp.
Qed.

Lemma if_truthy_true o cond :
  if_truthy o cond = true ↔ ∀ v, o = Some v → v ≠ [] → cond v = true.
Proof.
  unfold if_truthy. destruct o as [[|c v]|]; simpl.
  - split; [by intros _ v [= <-]|done].
  - split; [by intros ? ? [= <-]|]. intros Hc. by apply Hc.
  - split; [by intros _ v|done].
Qed.

Lemma if_given_true {A} (o : option A) cond :
  if_given o cond = true ↔ ∀ v, o = Some v → cond v = true.
Proof.
  unfold if_given. destruct o; simpl.
  - split; [by intros ? ? [= <-]|]. intros Hc. by apply Hc.
  - split; [by intros _ v|done].
Qed.

(** What a task has to satisfy to be listed by [ha_task_list]: each
    filter given as a non-empty string, or as an enumeration value,
    holds of the row; team and agent are compared in lower case. *)
Definition task_listed (project_id : option jsstring)
    (status : option TaskStatus) (team agent : option jsstring)
    (priority : option PriorityLevel) (k : Task.t) : Prop :=
  (∀ v, project_id = Some v → v ≠ [] → Task.project_id k = v)
  ∧ (∀ v, status = Some v → Task.status k = v)
  ∧ (∀ v, team = Some v → v ≠ [] → Task.assigned_team k = Some (toLowerCase v))
  ∧ (∀ v, agent = Some v → v ≠ [] → Task.assigned_agent k = Some (toLowerCase v))
  ∧ (∀ v, priority = Some v → Task.priority k = v).

Lemma task_list_where_true project_id status team agent priority k :
  task_list_where project_id status team agent priority k = true
  ↔ task_listed project_id status team agent priority k.
Proof.
  unfold task_list_where, task_listed.
  rewrite !andb_true_iff, !if_truthy_true, !if_given_true.
  setoid_rewrite bool_decide_eq_true. tauto.
Qed.

(** X14.  [ha_task_list] returns the first [limit] (50 when no limit is
    given) of the tasks that satisfy every filter given, newest first:
    the rows returned, followed by the matching rows left out, are all
    matching rows in descending order of creation.  A filter given as
    the empty string is no filter. *)
Theorem ha_task_list_newest_matching env project_id status team agent priority
    limit st :
  entity_fault env = None →
  ∃ l rest,
    ha_task_list env project_id status team agent priority limit st
    = (st, Returned l)
    ∧ (∀ k, k ∈ l ++ rest
            ↔ k ∈ task_rows st
              ∧ task_listed project_id status team agent priority k)
    ∧ length (l ++ rest)
      = length (List.filter
                  (task_list_where project_id status team agent priority)
                  (task_rows st))
    ∧ StronglySorted newest_task_first (l ++ rest)
    ∧ length l = (limit ?? 50) `min` length (l ++ rest).
Proof.
  intros Hf. unfold ha_task_list. rewrite Hf.
  destruct (page_listing (task_list_where project_id status team agent priority)
              newest_task_first (limit ?? 50) (task_rows st) _
              (task_list_where_true project_id status team agent priority))
    as (rest & H).
  by eexists _, rest.
Qed.

(** X15.  [ha_project_list] returns the first [limit] (20 when no limit
    is given) of the projects of the status asked for (of all projects
    when none is asked for), most recently updated first. *)
Theorem ha_project_list_recent_matching env status limit st :
  entity_fault env = None →
  ∃ l rest,
    ha_project_list env status limit st = (st, Returned l)
    ∧ (∀ p, p ∈ l ++ rest
            ↔ p ∈ project_rows st ∧ ∀ v, status = Some v → Project.status p = v)
    ∧ length (l ++ rest)
      = length (List.filter (project_list_where status) (project_rows st))
    ∧ StronglySorted recently_updated_first (l ++ rest)
    ∧ length l = (limit ?? 20) `min` length (l ++ rest).
Proof.
  intros Hf. unfold ha_project_list. rewrite Hf.
  assert (Hw : ∀ p, project_list_where status p = true
                    ↔ ∀ v, status = Some v → Project.status p = v).
  { intros p. unfold project_list_where. rewrite if_given_true.
    by setoid_rewrite bool_decide_eq_true. }
  destruct (page_listing (project_list_where status) recently_updated_first
              (limit ?? 20) (project_rows st) _ Hw) as (rest & H).
  by eexists _, rest.
Qed.

(** What an activity row has to satisfy to be listed by
    [ha_activity_get]: each filter given as a non-empty string equals
    the column, letter for letter. *)
Definition activity_listed (project_id agent team action : option jsstring)
    (a : ActivityLog.t) : Prop :=
  (∀ v, project_id = Some v → v ≠ [] → ActivityLog.project_id a = Some v)
  ∧ (∀ v, agent = Some v → v ≠ [] → ActivityLog.agent a = v)
  ∧ (∀ v, team = Some v → v ≠ [] → ActivityLog.team a = Some v)
  ∧ (∀ v, action = Some v → v ≠ [] → ActivityLog.action a = v).

Lemma activity_get_where_true project_id agent team action a :
  activity_get_where project_id agent team action a = true
  ↔ activity_listed project_id agent team action a.
Proof.
  unfold activity_get_where, activity_listed.
  rewrite !andb_true_iff, !if_truthy_true.
  setoid_rewrite bool_decide_eq_true. tauto.
Qed.

(** X16.  [ha_activity_get] returns the first [limit] (50 when no limit
    is given) of the activity rows that equal every filter given, newest
    first.  The team is compared as written, not in lower case. *)
Theorem ha_activity_get_newest_matching env project_id agent team action
    limit st :
  entity_fault env = None →
  ∃ l rest,
    ha_activity_get env project_id agent team action limit st
    = (st, Returned l)
    ∧ (∀ a, a ∈ l ++ rest
            ↔ a ∈ activity_log st
              ∧ activity_listed project_id agent team action a)
    ∧ length (l ++ rest)
      = length (List.filter (activity_get_where project_id agent team action)
                  (activity_log st))
    ∧ StronglySorted newest_first (l ++ rest)
    ∧ length l = (limit ?? 50) `min` length (l ++ rest).
Proof.
  intros Hf. unfold ha_activity_get. rewrite Hf.
  destruct (page_listing (activity_get_where project_id agent team action)
              newest_first (limit ?? 50) (activity_log st) _
              (activity_get_where_true project_id agent team action))
    as (rest & H).
  by eexists _, rest.
Qed.

Lemma status_in_active_not_done k :
  status_in_active k = true ↔ Task.status k ≠ done.
Proof.
  unfold status_in_active.
  destruct (Task.status k); vm_compute (bool_decide _); naive_solver.
Qed.

Lemma status_in_open_spec k :
  status_in_open k = true ↔ Task.status k ≠ done ∧ Task.status k ≠ backlog.
Proof.
  unfold status_in_open.
  destruct (Task.status k); vm_compute (bool_decide _);
    split; try done; by intros [? ?].
Qed.

Lemma my_tasks_where_true who include_done k :
  my_tasks_where who include_done k = true
  ↔ Task.assigned_agent k = Some (toLowerCase who)
    ∧ (include_done = Some true ∨ Task.status k ≠ done).
Proof.
  unfold my_tasks_where. rewrite andb_true_iff, bool_decide_eq_true.
  destruct include_done as [[|]|]; simpl; rewrite ?status_in_active_not_done;
    intuition congruence.
Qed.

Lemma team_tasks_where_true who include_done k :
  team_tasks_where who include_done k = true
  ↔ Task.assigned_team k = Some (toLowerCase who)
    ∧ (include_done = Some true ∨ Task.status k ≠ done).
Proof.
  unfold team_tasks_where. rewrite andb_true_iff, bool_decide_eq_true.
  destruct include_done as [[|]|]; simpl; rewrite ?status_in_active_not_done;
    intuition congruence.
Qed.

(** X17.  [ha_task_my_tasks] returns exactly the tasks of the store
    whose assigned agent is the lower-cased argument, and
    [ha_task_team_tasks] those whose assigned team is; a task with
    status [done] is among them only when [include_done] is [true]. *)
Theorem my_and_team_tasks_members env who include_done st :
  entity_fault env = None →
  ∃ mine theirs,
    ha_task_my_tasks env who include_done st = (st, Returned mine)
    ∧ ha_task_team_tasks env who include_done st = (st, Returned theirs)
    ∧ (∀ k, k ∈ mine
            ↔ k ∈ task_rows st
              ∧ Task.assigned_agent k = Some (toLowerCase who)
              ∧ (include_done = Some true ∨ Task.status k ≠ done))
    ∧ (∀ k, k ∈ theirs
            ↔ k ∈ task_rows st
              ∧ Task.assigned_team k = Some (toLowerCase who)
              ∧ (include_done = Some true ∨ Task.status k ≠ done)).
Proof.
  intros Hf.
  unfold ha_task_my_tasks, ha_task_team_tasks, bind, select_tasks. rewrite Hf.
  eexists _, _. split; [reflexivity|]. split; [reflexivity|]. simpl. split.
  - intros k. rewrite merge_sort_Permutation, List_filter_elem_of.
    by rewrite my_tasks_where_true.
  - intros k. rewrite merge_sort_Permutation, List_filter_elem_of.
    by rewrite team_tasks_where_true.
Qed.

Lemma ha_task_assign_run env task_id team agent st st' k :
  ha_task_assign env task_id team agent st = (st', Returned k) →
  tasks st' !! task_id = Some k
  ∧ Task.status k = todo
  ∧ Task.assigned_team k = Some (toLowerCase team)
  ∧ Task.assigned_agent k = toLowerCase <$> agent.
Proof.
  unfold ha_task_assign, bind, update_task, non_null, ret, throw.
  destruct (entity_fault env); simpl; [discriminate|].
  destruct (tasks st !! task_id); simpl; [|discriminate].
  rewrite logActivity_run. destruct (log_fault env); simpl; [discriminate|].
  intros [= <- <-]. simpl. by rewrite lookup_insert_eq.
Qed.

(** X18.  A task that was just assigned is listed for its team and for
    its agent, however the names are capitalised in the later call, as
    long as they lower-case to the same strings. *)
Theorem assigned_task_listed_for_team_and_agent
    env env' task_id team agent team' agent' include_done st st' k :
  ha_task_assign env task_id team (Some agent) st = (st', Returned k) →
  entity_fault env' = None →
  toLowerCase team' = toLowerCase team →
  toLowerCase agent' = toLowerCase agent →
  ∃ mine theirs,
    ha_task_my_tasks env' agent' include_done st' = (st', Returned mine)
    ∧ ha_task_team_tasks env' team' include_done st' = (st', Returned theirs)
    ∧ k ∈ mine ∧ k ∈ theirs.
Proof.
  intros Hrun Hf Ht Ha.
  apply ha_task_assign_run in Hrun as (Hk & Hs & Hteam & Hagent).
  destruct (my_and_team_tasks_members env' agent' include_done st' Hf)
    as (mine & _ & Hm & _ & Hmine & _).
  destruct (my_and_team_tasks_members env' team' include_done st' Hf)
    as (_ & theirs & _ & Hth & _ & Htheirs).
  exists mine, theirs. split; [done|]. split; [done|].
  assert (Hrow : k ∈ task_rows st') by (apply elem_of_task_rows; eauto).
  split.
  - apply Hmine. rewrite Ha, Hagent, Hs. repeat split; auto.
  - apply Htheirs. rewrite Ht, Hteam, Hs. repeat split; auto.
Qed.

(** X19.  [findTasksByAgent] and [findTasksByTeam] return the tasks
    [ha_task_my_tasks] and [ha_task_team_tasks] return by default, less
    those in [backlog]: the helpers leave out the backlog as well as
    the finished tasks. *)
Theorem find_tasks_leave_out_backlog env who st :
  entity_fault env = None →
  ∃ by_agent by_team mine theirs,
    findTasksByAgent env who st = (st, Returned by_agent)
    ∧ findTasksByTeam env who st = (st, Returned by_team)
    ∧ ha_task_my_tasks env who None st = (st, Returned mine)
    ∧ ha_task_team_tasks env who None st = (st, Returned theirs)
    ∧ by_agent ≡ₚ List.filter
                    (λ k, bool_decide (Task.status k ≠ backlog)) mine
    ∧ by_team ≡ₚ List.filter
                   (λ k, bool_decide (Task.status k ≠ backlog)) theirs.
Proof.
  intros Hf.
  unfold findTasksByAgent, findTasksByTeam, ha_task_my_tasks,
    ha_task_team_tasks, bind, select_tasks. rewrite Hf.
  eexists _, _, _, _. repeat (split; [reflexivity|]). simpl.
  assert (Hfuse : ∀ (f g : Task.t → bool) l,
            List.filter g (List.filter f l) = List.filter (λ x, f x && g x) l).
  { intros f g l. induction l as [|x l IH]; simpl; [done|].
    destruct (f x); simpl; [destruct (g x)|]; by rewrite IH. }
  assert (Hext : ∀ (f g : Task.t → bool) l,
            (∀ x, f x = g x) → List.filter f l = List.filter g l).
  { intros f g l Hfg. induction l as [|x l IH]; simpl; [done|].
    by rewrite Hfg, IH. }
  split.
  - rewrite (List_filter_Permutation _ _ _ (merge_sort_Permutation _ _)).
    rewrite Hfuse. erewrite Hext; [done|]. intros k. simpl.
    unfold my_tasks_where. simpl.
    apply eq_true_iff_eq.
    rewrite !andb_true_iff, status_in_open_spec, status_in_active_not_done,
      !bool_decide_eq_true. tauto.
  - rewrite (List_filter_Permutation _ _ _ (merge_sort_Permutation _ _)).
    rewrite Hfuse. erewrite Hext; [done|]. intros k. simpl.
    unfold team_tasks_where. simpl.
    apply eq_true_iff_eq.
    rewrite !andb_true_iff, status_in_open_spec, status_in_active_not_done,
      !bool_decide_eq_true. tauto.
Qed.

(** ** The activity tools *)

(** X20.  [ha_activity_log] appends one row with the agent, action,
    project and team given and no related entity, and leaves projects
    and tasks alone; the row is then among those [ha_activity_get]
    returns for that agent, provided the agent has fewer rows than the
    limit. *)
Theorem logged_activity_is_listed
    env env' agent action details project_id team limit st :
  log_fault env = None →
  entity_fault env' = None →
  agent ≠ [] →
  length (List.filter (λ a, bool_decide (ActivityLog.agent a = agent))
            (activity_log st)) < limit ?? 50 →
  let row := activity_row env agent action (details ?? object [])
               (mkLogOptions project_id team None None) in
  let st' := (ha_activity_log env agent action details project_id team st).1 in
  activity_log st' = activity_log st ++ [row]
  ∧ projects st' = projects st
  ∧ tasks st' = tasks st
  ∧ ActivityLog.related_id row = None
  ∧ ∃ l, ha_activity_get env' None (Some agent) None None limit st'
         = (st', Returned l)
         ∧ row ∈ l.
Proof.
  intros Hl Hf Hagent Hfew.
  assert (Ht : truthy agent = true) by (destruct agent; [by destruct Hagent|done]).
  intros row st'.
  assert (Hst : st' = with_activity_log (activity_log st ++ [row]) st).
  { subst st'. unfold ha_activity_log, bind. rewrite logActivity_run, Hl. done. }
  rewrite Hst. simpl. repeat (split; [done|]).
  destruct (ha_activity_get_newest_matching env' None (Some agent) None None
              limit (with_activity_log (activity_log st ++ [row]) st) Hf)
    as (l & rest & Hrun & Hmem & Hlen & _ & Hmin).
  exists l. split; [done|].
  assert (Hw : ∀ a, activity_get_where None (Some agent) None None a
                    = bool_decide (ActivityLog.agent a = agent)).
  { intros a. unfold activity_get_where, if_truthy. rewrite Ht. simpl.
    by rewrite !andb_true_r. }
  assert (Hcount : length (l ++ rest) ≤ limit ?? 50).
  { rewrite Hlen. simpl. rewrite List.filter_app, length_app. simpl.
    rewrite Hw. simpl. rewrite bool_decide_eq_true_2 by done. simpl.
    erewrite (List.filter_ext _ _ Hw). lia. }
  assert (rest = []) as ->.
  { rewrite length_app in *. destruct rest; [done|]. simpl in *. lia. }
  rewrite app_nil_r in Hmem. apply Hmem. split.
  - simpl. apply elem_of_app. right. by left.
  - unfold activity_listed. repeat split; try done. by intros v [= <-].
Qed.

(** X21.  [findProjectBySlug] throws only when the store answers with
    an error whose code is not [PGRST116].  It returns [null] for the
    code [PGRST116] and when no project, or more than one, has the slug;
    it returns the project when exactly one has it. *)
Theorem findProjectBySlug_outcomes env slug st :
  ∃ out,
    findProjectBySlug env slug st = (st, out)
    ∧ match out with
      | Returned (Some p) =>
          entity_fault env = None
          ∧ ∃ id, projects st !! id = Some p ∧ Project.slug p = slug
                  ∧ ∀ id' q, projects st !! id' = Some q →
                             Project.slug q = slug → id' = id
      | Returned None =>
          (∃ e, entity_fault env = Some e ∧ code e = str "PGRST116")
          ∨ (entity_fault env = None
             ∧ ∀ id p, projects st !! id = Some p → Project.slug p = slug →
                       ∃ id' q, id' ≠ id ∧ projects st !! id' = Some q
                                ∧ Project.slug q = slug)
      | Threw x =>
          ∃ e, entity_fault env = Some e ∧ code e ≠ str "PGRST116"
               ∧ x = thrown_by_handleError e
      end.
Proof.
  unfold findProjectBySlug, bind, select_project_by_slug.
  destruct (entity_fault env) as [e|]; simpl.
  - case_bool_decide as Hc.
    + rewrite handleError_run. eexists. split; [done|]. simpl. eauto.
    + eexists. split; [done|]. simpl. left. exists e. split; [done|].
      by destruct (decide (code e = str "PGRST116")).
  - unfold project_rows. rewrite List_filter_fmap.
    pose proof (NoDup_map_to_list (projects st)) as Hnd.
    apply (List_filter_NoDup
             (λ x : jsstring * Project.t, bool_decide (Project.slug x.2 = slug)))
      in Hnd.
    assert (Hin : ∀ i q, (i, q) ∈ List.filter
                    (λ x : jsstring * Project.t,
                       bool_decide (Project.slug x.2 = slug))
                    (map_to_list (projects st))
                  ↔ projects st !! i = Some q ∧ Project.slug q = slug).
    { intros i q. rewrite List_filter_elem_of, elem_of_map_to_list. simpl.
      by rewrite bool_decide_eq_true. }
    destruct (List.filter _ (map_to_list (projects st)))
      as [|[i a] [|[j b] l]] eqn:E; csimpl.
    + eexists. split; [done|]. simpl. right. split; [done|].
      intros id p Hp Hs. assert (Hc : (id, p) ∈ []) by (apply Hin; done).
      by inv Hc.
    + eexists. split; [done|]. simpl. split; [done|].
      assert (Hia : projects st !! i = Some a ∧ Project.slug a = slug)
        by (apply Hin; left).
      exists i. destruct Hia as [Hi Ha]. repeat split; try done.
      intros id' q Hq Hs. assert (Hc : (id', q) ∈ [(i, a)]) by (apply Hin; done).
      apply list_elem_of_singleton in Hc. congruence.
    + eexists. split; [done|]. simpl. right. split; [done|].
      intros id p Hp Hs.
      assert (Hi : projects st !! i = Some a ∧ Project.slug a = slug)
        by (apply Hin; left).
      assert (Hj : projects st !! j = Some b ∧ Project.slug b = slug)
        by (apply Hin; right; left).
      assert (Hij : i ≠ j).
      { intros ->. destruct Hi as [Hi _], Hj as [Hj _].
        assert (a = b) as -> by congruence.
        inv Hnd. apply H1. left. }
      destruct (decide (i = id)) as [->|Hne].
      * exists j, b. by destruct Hj.
      * exists i, a. by destruct Hi.
Qed.

(** X22.  The tools and helpers that read never write: whatever the
    store answers, the store after the call is the store before it. *)
Theorem reading_leaves_the_store env st identifier pstatus limit
    project_id tstatus team agent priority who include_done action
    project_fault tasks_fault activity_fault :
  (ha_project_get env identifier st).1 = st
  ∧ (ha_project_list env pstatus limit st).1 = st
  ∧ (ha_task_list env project_id tstatus team agent priority limit st).1 = st
  ∧ (ha_task_my_tasks env who include_done st).1 = st
  ∧ (ha_task_team_tasks env who include_done st).1 = st
  ∧ (ha_activity_get env project_id agent team action limit st).1 = st
  ∧ (ha_status_project project_fault tasks_fault activity_fault
       identifier st).1 = st
  ∧ (findProjectBySlug env identifier st).1 = st
  ∧ (findTasksByAgent env who st).1 = st
  ∧ (findTasksByTeam env who st).1 = st.
Proof.
  destruct (findProjectBySlug_outcomes env identifier st) as (out & Hfind & _).
  rewrite Hfind.
  unfold ha_project_get, ha_project_list, ha_task_list, ha_task_my_tasks,
    ha_task_team_tasks, ha_activity_get, ha_status_project, findTasksByAgent,
    findTasksByTeam, bind, select_project, select_project_by_slug, select_tasks,
    select_task_summaries, select_recent_activity.
  destruct (entity_fault env), project_fault, tasks_fault, activity_fault,
    (isUuid identifier), (projects st !! identifier);
    rewrite ?handleError_run; simpl;
    repeat apply conj; try done;
    by destruct (List.filter _ (project_rows st)) as [|? [|? ?]].
Qed.

(** ** The dashboard's counts *)

(** The tasks of a project, as rows of the store. *)
Definition project_tasks (pid : jsstring) (st : Store) : list Task.t :=
  List.filter (λ k, bool_decide (Task.project_id k = pid)) (task_rows st).

(** The counting loop, over the keys counted. *)
Definition tally (keys : list jsstring) (acc : gmap jsstring CountValue)
  : gmap jsstring CountValue :=
  foldl (λ acc k, count_one k acc) acc keys.

Definition occurrences (k : jsstring) (keys : list jsstring) : nat :=
  length (List.filter (λ x, bool_decide (x = k)) keys).

(** The sum of the entries of a frequency object, when every entry is a
    number. *)
Definition add_entry (v : CountValue) (sum : option nat) : option nat :=
  match v, sum with
  | CNum n, Some a => Some (n + a)
  | _, _ => None
  end.

Definition sum_counts (m : gmap jsstring CountValue) : option nat :=
  map_fold (λ _, add_entry) (Some 0) m.

(** A count that appears in a frequency object: never zero. *)
Definition count_entry (n : nat) : option nat :=
  match n with 0 => None | S _ => Some n end.

(** What is found under a name inherited from [Object.prototype] once
    [n] tasks were counted under it: the inherited member as a string
    with one ["1"] appended per task. *)
Definition text_entry (inherited : jsstring) (n : nat) : option CountValue :=
  match n with
  | 0 => None
  | S _ => Some (CStr (Nat.iter n (λ s, s ++ str "1") inherited))
  end.

(** The names under which a plain object counts with numbers. *)
Definition plain_name (k : jsstring) : Prop := Object_prototype k = None.

Lemma plain_name_not_proto k : plain_name k → k ≠ str "__proto__".
Proof. intros Hk ->. by vm_compute in Hk. Qed.

Lemma TaskStatus_name_plain s : plain_name (TaskStatus_name s).
Proof. by destruct s; vm_compute. Qed.

Lemma tally_lookup keys acc k :
  k ≠ str "__proto__" →
  tally keys acc !! k =
  Nat.iter (occurrences k keys) (λ own, Some (plus_one k own)) (acc !! k).
Proof.
  intros Hk. unfold tally, occurrences. revert acc.
  induction keys as [|x keys IH]; intros acc; simpl; [done|].
  rewrite IH. unfold count_one, set_property.
  destruct (decide (x = k)) as [->|Hx].
  - rewrite bool_decide_eq_true_2 by done. simpl length.
    rewrite Nat.iter_succ_r. rewrite decide_False by done.
    by rewrite lookup_insert_eq.
  - rewrite bool_decide_eq_false_2 by done.
    destruct (decide (x = str "__proto__")); [done|].
    by rewrite lookup_insert_ne.
Qed.

Lemma tally_lookup_proto keys acc :
  tally keys acc !! str "__proto__" = acc !! str "__proto__".
Proof.
  unfold tally. revert acc.
  induction keys as [|x keys IH]; intros acc; simpl; [done|].
  rewrite IH. unfold count_one, set_property.
  destruct (decide (x = str "__proto__")); [done|].
  by rewrite lookup_insert_ne.
Qed.

Lemma iter_plus_one_plain k n :
  plain_name k →
  Nat.iter n (λ own, Some (plus_one k own)) None = CNum <$> count_entry n.
Proof.
  intros Hk. induction n as [|n IH]; simpl; [done|].
  rewrite IH. destruct n as [|n]; simpl.
  - unfold plain_name in Hk. by rewrite Hk.
  - do 2 f_equal. lia.
Qed.

Lemma iter_plus_one_inherited k inherited n :
  Object_prototype k = Some inherited →
  Nat.iter n (λ own, Some (plus_one k own)) None = text_entry inherited n.
Proof.
  intros Hk. induction n as [|n IH]; simpl; [done|].
  rewrite IH. destruct n as [|n]; simpl; [by rewrite Hk|done].
Qed.

Lemma add_entry_comm v1 v2 sum :
  add_entry v1 (add_entry v2 sum) = add_entry v2 (add_entry v1 sum).
Proof. destruct v1, v2, sum; simpl; try done. f_equal. lia. Qed.

Lemma sum_counts_empty : sum_counts ∅ = Some 0.
Proof. unfold sum_counts. apply map_fold_empty. Qed.

Lemma sum_counts_delete m k v :
  m !! k = Some v → sum_counts m = add_entry v (sum_counts (delete k m)).
Proof.
  intros Hk. unfold sum_counts.
  rewrite (map_fold_delete_L _ _ k v m); [done| |done].
  intros. apply add_entry_comm.
Qed.

Lemma sum_counts_insert m k v :
  m !! k = None → sum_counts (<[k := v]> m) = add_entry v (sum_counts m).
Proof.
  intros Hk. unfold sum_counts.
  rewrite map_fold_insert_L; [done| |done].
  intros. apply add_entry_comm.
Qed.

Lemma sum_counts_count_one k m a :
  plain_name k → sum_counts m = Some a →
  sum_counts (count_one k m) = Some (S a).
Proof.
  intros Hk Hm. unfold count_one, set_property.
  rewrite decide_False by by apply plain_name_not_proto.
  destruct (m !! k) as [v|] eqn:Hv.
  - rewrite (sum_counts_delete m k v Hv) in Hm.
    rewrite <- insert_delete_eq, sum_counts_insert by apply lookup_delete_eq.
    destruct v as [n|s], (sum_counts (delete k m)) as [a'|]; simplify_eq/=.
    f_equal. lia.
  - rewrite sum_counts_insert, Hm by done. simpl.
    unfold plain_name in Hk. by rewrite Hk.
Qed.

Lemma sum_counts_tally keys acc a :
  Forall plain_name keys → sum_counts acc = Some a →
  sum_counts (tally keys acc) = Some (a + length keys).
Proof.
  unfold tally. intros Hkeys. revert acc a.
  induction Hkeys as [|x keys Hx _ IH]; intros acc a Ha; simpl.
  - rewrite Ha. f_equal. lia.
  - rewrite (IH _ (S a)) by by apply sum_counts_count_one.
    f_equal. lia.
Qed.

Lemma statusCounts_tally l :
  statusCounts l = tally ((λ t, TaskStatus_name (ts_status t)) <$> l) ∅.
Proof. unfold statusCounts, tally. by rewrite foldl_fmap. Qed.

(** The key a task is counted under in [by_team], if any. *)
Definition team_key (t : TaskSummary) : option jsstring :=
  match ts_assigned_team t with
  | Some team => if truthy team then Some team else None
  | None => None
  end.

Lemma teamCounts_tally l : teamCounts l = tally (omap team_key l) ∅.
Proof.
  unfold teamCounts, tally. generalize (∅ : gmap jsstring CountValue).
  induction l as [|t l IH]; intros acc; csimpl; [done|].
  rewrite IH. unfold team_key at 2.
  destruct (ts_assigned_team t) as [team|]; [|done].
  by destruct (truthy team).
Qed.

Lemma TaskStatus_name_inj s s' :
  TaskStatus_name s = TaskStatus_name s' → s = s'.
Proof. destruct s, s'; intros H; try done; vm_compute in H; discriminate. Qed.

(** The tasks counted under [team], among the rows [l]. *)
Lemma occurrences_team_key team l :
  occurrences team (omap team_key (summary <$> l))
  = length (List.filter
              (λ k, bool_decide (Task.assigned_team k = Some team)
                    && truthy team) l).
Proof.
  unfold occurrences.
  induction l as [|k l IH]; csimpl; [done|].
  unfold team_key at 1. simpl.
  destruct (Task.assigned_team k) as [t|] eqn:Hk; simpl.
  - destruct (truthy t) eqn:Ht; simpl.
    + destruct (decide (t = team)) as [->|Hne].
      * rewrite !bool_decide_eq_true_2 by done. rewrite Ht in *. simpl.
        by rewrite IH.
      * rewrite bool_decide_eq_false_2 by done.
        rewrite bool_decide_eq_false_2 by congruence. done.
    + destruct (decide (t = team)) as [->|Hne].
      * rewrite Ht in *. by rewrite andb_false_r.
      * rewrite bool_decide_eq_false_2 by congruence. done.
  - done.
Qed.

Lemma occurrences_truthy_team team l :
  truthy team = true →
  occurrences team (omap team_key (summary <$> l))
  = length (List.filter
              (λ k, bool_decide (Task.assigned_team k = Some team)) l).
Proof.
  intros Ht. rewrite occurrences_team_key. f_equal.
  apply List.filter_ext. intros k. rewrite Ht. apply andb_true_r.
Qed.

Lemma ha_status_project_run activity_fault project_id st p :
  projects st !! project_id = Some p →
  ∃ d, (ha_status_project None None activity_fault project_id st).2 = Returned d
       ∧ total d = length (project_tasks project_id st)
       ∧ by_status d = statusCounts (summary <$> project_tasks project_id st)
       ∧ by_team d = teamCounts (summary <$> project_tasks project_id st).
Proof.
  intros Hp. unfold ha_status_project, bind, select_project,
    select_task_summaries, select_recent_activity. rewrite Hp.
  destruct activity_fault; simpl; eexists; (split; [done|]); simpl;
    by rewrite length_fmap.
Qed.

(** X23.  In the dashboard of an existing project, [by_status] holds for
    each status the number of the project's tasks in that status, and
    holds no entry for a status no task is in; [total] is the number of
    the project's tasks. *)
Theorem dashboard_by_status_counts activity_fault project_id st p :
  projects st !! project_id = Some p →
  ∃ d,
    (ha_status_project None None activity_fault project_id st).2 = Returned d
    ∧ total d = length (project_tasks project_id st)
    ∧ ∀ s, by_status d !! TaskStatus_name s =
           CNum <$>
           count_entry
             (length (List.filter (λ k, bool_decide (Task.status k = s))
                        (project_tasks project_id st))).
Proof.
  intros Hp.
  destruct (ha_status_project_run activity_fault project_id st p Hp)
    as (d & Hd & Ht & Hs & _).
  exists d. repeat split; try done. intros s.
  rewrite Hs, statusCounts_tally.
  rewrite tally_lookup by apply plain_name_not_proto, TaskStatus_name_plain.
  rewrite lookup_empty, iter_plus_one_plain by apply TaskStatus_name_plain.
  do 2 f_equal.
  unfold occurrences. generalize (project_tasks project_id st).
  intros l. induction l as [|k l IH]; csimpl; [done|].
  destruct (decide (Task.status k = s)) as [->|Hne].
  - rewrite !bool_decide_eq_true_2 by done. simpl. by rewrite IH.
  - rewrite (bool_decide_eq_false_2 (Task.status k = s)) by done.
    rewrite bool_decide_eq_false_2; [done|].
    intros H. by apply TaskStatus_name_inj in H.
Qed.

(** No task of [l] is assigned to a team whose name is the name of a
    member of [Object.prototype]. *)
Definition plain_team_names (l : list Task.t) : Prop :=
  Forall (λ k, Task.assigned_team k ≫= Object_prototype = None) l.

(** X24.  The entries of [by_status] are numbers that add up to
    [total].  When no task of the project is assigned to a team named
    like a member of [Object.prototype], the entries of [by_team] are
    numbers too, and add up to the number of the project's tasks that
    have a non-empty team, which is at most [total]: tasks without a
    team are in the total and in no team's count. *)
Theorem dashboard_counts_add_up activity_fault project_id st p :
  projects st !! project_id = Some p →
  ∃ d,
    (ha_status_project None None activity_fault project_id st).2 = Returned d
    ∧ sum_counts (by_status d) = Some (total d)
    ∧ (plain_team_names (project_tasks project_id st) →
       ∃ n, sum_counts (by_team d) = Some n
            ∧ n = length (List.filter
                            (λ k, match Task.assigned_team k with
                                  | Some team => truthy team
                                  | None => false
                                  end)
                            (project_tasks project_id st))
            ∧ n ≤ total d).
Proof.
  intros Hp.
  destruct (ha_status_project_run activity_fault project_id st p Hp)
    as (d & Hd & Ht & Hs & Hteam).
  exists d. split; [done|]. split.
  - rewrite Hs, statusCounts_tally.
    rewrite (sum_counts_tally _ _ 0); [|..|apply sum_counts_empty].
    + rewrite Ht. simpl. by rewrite !length_fmap.
    + apply Forall_fmap, Forall_true. intros t. apply TaskStatus_name_plain.
  - intros Hplain. eexists. split; [|split; [reflexivity|]].
    + rewrite Hteam, teamCounts_tally.
      rewrite (sum_counts_tally _ _ 0); [|..|apply sum_counts_empty].
      * simpl. f_equal. clear -Hplain.
        induction Hplain as [|k l _ _ IH]; csimpl; [done|].
        unfold team_key at 1. simpl.
        destruct (Task.assigned_team k) as [team|]; [|done].
        destruct (truthy team); simpl; by rewrite IH.
      * clear -Hplain.
        induction Hplain as [|k l Hk _ IH]; csimpl; [constructor|].
        unfold team_key at 1. simpl.
        destruct (Task.assigned_team k) as [team|]; [|done].
        destruct (truthy team); [|done].
        constructor; [exact Hk|exact IH].
    + rewrite Ht. apply List.filter_length_le.
Qed.

(** X25.  [by_team] never has an entry under the empty name or under
    [__proto__].  Under any other name that [Object.prototype] has no
    member of, it holds the number of the project's tasks assigned to
    exactly that team, and no entry for a team without tasks.  Under
    the name of a member of [Object.prototype], such as [constructor],
    it holds no number but a string: that member as text, followed by
    one ["1"] per task of the team. *)
Theorem dashboard_by_team_counts activity_fault project_id st p :
  projects st !! project_id = Some p →
  ∃ d,
    (ha_status_project None None activity_fault project_id st).2 = Returned d
    ∧ by_team d !! [] = None
    ∧ by_team d !! str "__proto__" = None
    ∧ (∀ team, team ≠ [] → Object_prototype team = None →
         by_team d !! team =
         CNum <$>
         count_entry
           (length (List.filter
                      (λ k, bool_decide (Task.assigned_team k = Some team))
                      (project_tasks project_id st))))
    ∧ (∀ team inherited,
         team ≠ str "__proto__" → Object_prototype team = Some inherited →
         by_team d !! team =
         text_entry inherited
           (length (List.filter
                      (λ k, bool_decide (Task.assigned_team k = Some team))
                      (project_tasks project_id st)))).
Proof.
  intros Hp.
  destruct (ha_status_project_run activity_fault project_id st p Hp)
    as (d & Hd & _ & _ & Hteam).
  exists d. split; [done|].
  rewrite Hteam, teamCounts_tally. repeat apply conj.
  - rewrite tally_lookup by done.
    rewrite lookup_empty, occurrences_team_key. simpl.
    erewrite List.filter_ext; [|intros; apply andb_false_r].
    assert (Hnone : ∀ l : list Task.t, List.filter (λ _, false) l = [])
      by (intros l; by induction l).
    by rewrite Hnone.
  - by rewrite tally_lookup_proto.
  - intros team Hne Hplain.
    rewrite tally_lookup by by apply plain_name_not_proto.
    rewrite lookup_empty, iter_plus_one_plain by done.
    rewrite occurrences_truthy_team by by destruct team.
    done.
  - intros team inherited Hne Hin.
    rewrite tally_lookup by done.
    rewrite lookup_empty, (iter_plus_one_inherited _ inherited) by done.
    rewrite occurrences_truthy_team; [done|].
    destruct team; [by vm_compute in Hin|done].
Qed.

(** X26.  [recent_activity] holds the ten newest activity rows of the
    project, newest first: together with the project's rows left out it
    is all rows of the project in descending order of creation, and it
    has ten rows unless the project has fewer. *)
Theorem dashboard_recent_activity tasks_fault project_id st p :
  projects st !! project_id = Some p →
  ∃ d rest,
    (ha_status_project None tasks_fault None project_id st).2 = Returned d
    ∧ (∀ a, a ∈ recent_activity d ++ rest
            ↔ a ∈ activity_log st ∧ ActivityLog.project_id a = Some project_id)
    ∧ StronglySorted newest_first (recent_activity d ++ rest)
    ∧ length (recent_activity d)
      = 10 `min` length (recent_activity d ++ rest).
Proof.
  intros Hp.
  destruct (page_listing
              (λ a, bool_decide (ActivityLog.project_id a = Some project_id))
              newest_first 10 (activity_log st)
              (λ a, ActivityLog.project_id a = Some project_id))
    as (rest & Hmem & _ & Hs & Hl); [intros; apply bool_decide_eq_true|].
  unfold ha_status_project, bind, select_project, select_task_summaries,
    select_recent_activity. rewrite Hp.
  destruct tasks_fault; simpl; eexists _, rest; (split; [done|]); simpl; done.
Qed.

End Server.

(** * Task lists under the enum order of the priority column *)

(** C9.  With the [priority] column ordered as the four-level enum
    ([enum_rank], the order of the spec), [ha_task_my_tasks] and
    [ha_task_team_tasks] return exactly the rows they ask for, sorted by
    priority ascending under critical < high < medium < low and, within
    a priority, by creation time descending. *)
Theorem task_lists_sorted_by_priority_then_recency
    toLowerCase env st agent team include_done :
  entity_fault env = None →
  ∃ mine theirs,
    ha_task_my_tasks toLowerCase enum_rank env agent include_done st
    = (st, Returned mine)
    ∧ ha_task_team_tasks toLowerCase enum_rank env team include_done st
      = (st, Returned theirs)
    ∧ StronglySorted by_priority_then_recency mine
    ∧ StronglySorted by_priority_then_recency theirs
    ∧ mine ≡ₚ List.filter (my_tasks_where toLowerCase agent include_done)
                (map_to_list (tasks st)).*2
    ∧ theirs ≡ₚ List.filter (team_tasks_where toLowerCase team include_done)
                  (map_to_list (tasks st)).*2.
Proof.
  intros Hf.
  destruct (task_lists_in_column_order toLowerCase enum_rank env st agent team
              include_done Hf)
    as (mine & theirs & Hm & Ht & Hms & Hts & Hmp & Htp).
  exists mine, theirs.
  assert (Himpl : ∀ l, StronglySorted (priority_then_newest enum_rank) l →
                       StronglySorted by_priority_then_recency l).
  { intros l Hl. rewrite <- (list_fmap_id l).
    eapply StronglySorted_fmap; [|exact Hl].
    intros x y. apply column_order_is_enum_order; simpl; lia. }
  repeat apply conj; auto.
Qed.

(** * The client singleton (supabase.ts) *)

Section ClientSingleton.

(** [process.env], as far as [getEnv] reads it. *)
Record ProcessEnv := mkProcessEnv {
  SUPABASE_URL : option jsstring;
  SUPABASE_SERVICE_KEY : option jsstring;
}.

(** The client [createClient(url, key, ...)] builds. *)
Record Client := mkClient {
  client_url : jsstring;
  client_key : jsstring;
}.

(** The schema library's test of [z.string().url()]. *)
Variable is_url : jsstring → bool.

(** The message of the schema library's error for an environment. *)
Variable schema_error_message : ProcessEnv → jsstring.

Definition getEnv (penv : ProcessEnv) : Outcome (jsstring * jsstring) :=
  match SUPABASE_URL penv, SUPABASE_SERVICE_KEY penv with
  | Some url, Some key =>
      if is_url url && bool_decide (1 ≤ length key)
      then Returned (url, key)
      else Threw (Error_ (str "Missing environment variables: "
                            ++ schema_error_message penv))
  | _, _ =>
      Threw (Error_ (str "Missing environment variables: "
                       ++ schema_error_message penv))
  end.

(** [getSupabase], on the module variable [supabaseClient]: the new
    value of the variable and the outcome of the call. *)
Definition getSupabase (penv : ProcessEnv) (supabaseClient : option Client)
  : option Client * Outcome Client :=
  match supabaseClient with
  | Some client => (Some client, Returned client)
  | None =>
      match getEnv penv with
      | Returned (url, key) =>
          let client := mkClient url key in
          (Some client, Returned client)
      | Threw e => (None, Threw e)
      end
  end.

(** X27.  [getSupabase] builds the client once: after a call that
    returned, the module variable holds the client returned, and every
    later call returns that same client whatever the environment has
    become.  A call throws only when no client exists and the
    environment is rejected, and then it stores nothing, so that a
    later call validates the environment again. *)
Theorem getSupabase_builds_once penv cache :
  match getSupabase penv cache with
  | (cache', Returned client) =>
      cache' = Some client
      ∧ ∀ penv', getSupabase penv' cache' = (cache', Returned client)
  | (cache', Threw e) =>
      cache = None ∧ cache' = None ∧ getEnv penv = Threw e
  end.
Proof.
  unfold getSupabase. destruct cache as [client|]; [done|].
  destruct (getEnv penv) as [[url key]|e]; done.
Qed.

End ClientSingleton.

(** * The properties at concrete inputs *)

(** [asciiLower] leaves a slug as it is, as [toLowerCase] does. *)
Lemma asciiLower_slug_fixed s :
  Forall (λ c, is_slug_unit c = true) s → asciiLower s = s.
Proof.
  unfold asciiLower. induction 1 as [|c r Hc _ IH]; csimpl; [done|].
  rewrite IH. f_equal. unfold lower_unit.
  destruct ((65 <=? c)%N && (c <=? 90)%N) eqn:Hup; [|done].
  unfold is_slug_unit, is_lower_az, is_digit, is_hyphen, hyphen in Hc.
  apply andb_true_iff in Hup as [H1 H2]. apply N.leb_le in H1, H2.
  repeat (apply orb_prop in Hc as [Hc|Hc]);
    rewrite ?andb_true_iff, ?N.leb_le, ?N.eqb_eq in Hc; lia.
Qed.

Definition printable_ascii (c : N) : Prop := (32 ≤ c ≤ 126)%N.

Example generateSlug_acme :
  generateSlug asciiLower (str "Acme Launch") = str "acme-launch".
Proof. reflexivity. Qed.

(** C5, at the input [" Acme Launch "].  The white space at the two ends
    has become hyphens by the time [trim] runs, and [trim] strips white
    space only, so the slug keeps a hyphen at each end. *)
Theorem generateSlug_keeps_hyphens_at_the_ends :
  Forall printable_ascii (str " Acme Launch ")
  ∧ generateSlug asciiLower (str " Acme Launch ") = str "-acme-launch-"
  ∧ head (generateSlug asciiLower (str " Acme Launch ")) = Some hyphen
  ∧ last (generateSlug asciiLower (str " Acme Launch ")) = Some hyphen.
Proof.
  split; [|by vm_compute].
  unfold printable_ascii. vm_compute str. repeat constructor; lia.
Qed.

Lemma generateSlug_idempotent_witness :
  generateSlug asciiLower (generateSlug asciiLower (str " Acme  Launch! "))
  = generateSlug asciiLower (str " Acme  Launch! ").
Proof.
  apply (generateSlug_idempotent asciiLower (str " Acme  Launch! ")).
  exact asciiLower_slug_fixed.
Defined.

(** ** The scenario of the specification, run on an empty store *)

(** The environment of a call that inserts an entity row: the time, the
    id the store gives the row, the id it gives the activity row. *)
Definition env_at (t : timestamp) (entity_id activity_id : string) : Env :=
  mkEnv t (str entity_id) (str activity_id) None None.

(** The environment of a call that updates a row: no entity id is drawn. *)
Definition update_at (t : timestamp) (activity_id : string) : Env :=
  mkEnv t [] (str activity_id) None None.

Definition store0 : Store := mkStore ∅ ∅ [].

(** [createProject(name = "Acme Launch")] *)
Definition store1 : Store :=
  (ha_project_create asciiLower true (env_at 1 "p1" "a1")
     (str "Acme Launch") None None None store0).1.

(** [createTask(title = "Design homepage", project_id = p1)] *)
Definition store2 : Store :=
  (ha_task_create asciiLower true (env_at 2 "t1" "a2")
     (str "p1") (str "Design homepage") None None None None None None None
     store1).1.

(** [assignTask(t1, "pixelcraft", "ava")] *)
Definition store3 : Store :=
  (ha_task_assign asciiLower true (update_at 3 "a3")
     (str "t1") (str "pixelcraft") (Some (str "ava")) store2).1.

(** [setTaskStatus(t1, "in_progress")] *)
Definition store4 : Store :=
  (ha_task_status true (update_at 4 "a4")
     (str "t1") in_progress None None store3).1.

(** [setTaskStatus(t1, "blocked", notes = "waiting on assets")] *)
Definition store5 : Store :=
  (ha_task_status true (update_at 5 "a5")
     (str "t1") blocked None (Some (str "waiting on assets")) store4).1.

(** The column of the task [t1] in a store. *)
Definition t1_column {A} (col : Task.t → A) (st : Store) : option A :=
  col <$> tasks st !! str "t1".

(** [setTaskStatus(t1, "done")] *)
Definition store6 : Store :=
  (ha_task_status true (update_at 6 "a6")
     (str "t1") done None None store5).1.

(** The value of a call that returned. *)
Definition returned_or {A} (dflt : A) (o : Outcome A) : A :=
  match o with Returned a => a | Threw _ => dflt end.

Definition no_dashboard : Dashboard := mkDashboard None 0 ∅ ∅ [].

Example scenario_columns :
  Project.slug <$> projects store1 !! str "p1" = Some (str "acme-launch")
  ∧ t1_column Task.status store2 = Some backlog
  ∧ t1_column Task.priority store2 = Some medium
  ∧ t1_column Task.status store3 = Some todo
  ∧ t1_column Task.assigned_team store3 = Some (Some (str "pixelcraft"))
  ∧ t1_column Task.assigned_agent store3 = Some (Some (str "ava"))
  ∧ t1_column Task.started_at store4 = Some (Some 4%Z)
  ∧ t1_column Task.blocker_reason store5 = Some (Some (str "waiting on assets"))
  ∧ t1_column Task.blocker_reason store6 = Some None
  ∧ t1_column Task.completed_at store6 = Some (Some 6%Z)
  ∧ by_status (returned_or no_dashboard
                 (ha_status_project None None None (str "p1") store6).2)
      !! str "done" = Some (CNum 1)
  ∧ length (activity_log store6) = 6.
Proof. by vm_compute. Qed.

(** The two rows of the scenario after step 5. *)
Definition acme : Project.t :=
  {| Project.id := str "p1";
     Project.name := str "Acme Launch";
     Project.slug := str "acme-launch";
     Project.description := None;
     Project.status := planning;
     Project.template := None;
     Project.tech_stack := JObj [];
     Project.settings := JObj [(str "autonomous", JBool false)];
     Project.metadata := JObj [];
     Project.created_at := 1;
     Project.updated_at := 1 |}.

Definition t1_blocked : Task.t :=
  {| Task.id := str "t1";
     Task.project_id := str "p1";
     Task.roadmap_id := None;
     Task.parent_id := None;
     Task.title := str "Design homepage";
     Task.description := None;
     Task.status := blocked;
     Task.priority := medium;
     Task.assigned_team := Some (str "pixelcraft");
     Task.assigned_agent := Some (str "ava");
     Task.estimated_hours := None;
     Task.actual_hours := None;
     Task.due_date := None;
     Task.started_at := Some 4%Z;
     Task.completed_at := None;
     Task.blocked_by := None;
     Task.blocker_reason := Some (str "waiting on assets");
     Task.deliverable_path := None;
     Task.deliverables := [];
     Task.tags := [];
     Task.metadata := JObj [];
     Task.created_by := Some (str "system");
     Task.updated_by := Some (str "system");
     Task.created_at := 2;
     Task.updated_at := 2 |}.

Example store5_rows :
  projects store5 !! str "p1" = Some acme
  ∧ tasks store5 !! str "t1" = Some t1_blocked.
Proof. by vm_compute. Qed.

(** An error the store may answer a query with. *)
Definition statement_timeout : StoreError :=
  mkStoreError (str "canceling statement due to statement timeout") (str "57014").

(** ** Dashboard *)



(** ** Task lifecycle *)

(** C2, the claim refuted: [started_at] was set at time 4 by the first
    entry into [in_progress]; a second entry at time 7, through either
    handler, overwrites it.  Likewise [completed_at], set at time 6, is
    overwritten by a second write of [done] at time 8. *)
Lemma started_at_overwritten_by_second_entry :
  t1_column Task.started_at store5 = Some (Some 4%Z)
  ∧ t1_column Task.started_at
      (ha_task_status true (update_at 7 "a7")
         (str "t1") in_progress None None store5).1 = Some (Some 7%Z)
  ∧ t1_column Task.started_at
      (ha_task_update asciiLower (update_at 7 "a7")
         (str "t1") None None None (Some in_progress) None None None None None
         store5).1 = Some (Some 7%Z)
  ∧ t1_column Task.completed_at store6 = Some (Some 6%Z)
  ∧ t1_column Task.completed_at
      (ha_task_status true (update_at 8 "a8")
         (str "t1") done None None store6).1 = Some (Some 8%Z).
Proof. by vm_compute. Qed.

Lemma lifecycle_timestamps_stamped_on_every_entry_witness :
  tasks store5 !! str "t1" = Some t1_blocked
  ∧ entity_fault (update_at 7 "a7") = None
  ∧ ∃ k1 k2,
      tasks (ha_task_status true (update_at 7 "a7")
               (str "t1") in_progress None None store5).1 !! str "t1" = Some k1
      ∧ tasks (ha_task_update asciiLower (update_at 7 "a7")
                 (str "t1") None None None (Some in_progress) None None None
                 None None store5).1 !! str "t1" = Some k2
      ∧ Task.started_at k1 =
          (if decide (in_progress = in_progress)
           then Some (now (update_at 7 "a7")) else Task.started_at t1_blocked)
      ∧ Task.started_at k2 =
          (if decide (in_progress = in_progress)
           then Some (now (update_at 7 "a7")) else Task.started_at t1_blocked)
      ∧ Task.completed_at k1 =
          (if decide (in_progress = done)
           then Some (now (update_at 7 "a7")) else Task.completed_at t1_blocked)
      ∧ Task.completed_at k2 =
          (if decide (in_progress = done)
           then Some (now (update_at 7 "a7")) else Task.completed_at t1_blocked).
Proof.
  split; [vm_compute; reflexivity|]. split; [reflexivity|].
  apply (lifecycle_timestamps_stamped_on_every_entry asciiLower true
           (update_at 7 "a7") store5 (str "t1") t1_blocked in_progress
           None None None None None None None None None None).
  - vm_compute; reflexivity.
  - reflexivity.
Defined.

(** C3, at the blocked task of the scenario.  [ha_task_update] with
    [status = "done"] and [ha_task_assign] (which writes [todo]) move the
    task out of [blocked] and leave its [blocker_reason] in place. *)
Theorem blocker_reason_kept_by_update_and_assign :
  t1_column Task.status store5 = Some blocked
  ∧ t1_column Task.blocker_reason store5 = Some (Some (str "waiting on assets"))
  ∧ (let st :=
       (ha_task_update asciiLower (update_at 6 "a6")
          (str "t1") None None None (Some done) None None None None None
          store5).1 in
     t1_column Task.status st = Some done
     ∧ t1_column Task.blocker_reason st = Some (Some (str "waiting on assets")))
  ∧ (let st :=
       (ha_task_assign asciiLower true (update_at 6 "a6")
          (str "t1") (str "devforge") None store5).1 in
     t1_column Task.status st = Some todo
     ∧ t1_column Task.blocker_reason st = Some (Some (str "waiting on assets"))).
Proof. by vm_compute. Qed.

(** C4, the claim refuted.  For the new status [done] the status setter
    clears [blocker_reason] and the generic update leaves it; for the
    new status [blocked] the status setter records the caller's notes
    and the generic update, which takes none, records nothing.  The two
    do not apply the same table. *)
Lemma update_to_done_keeps_reason_the_setter_clears :
  t1_column Task.blocker_reason
    (ha_task_status true (update_at 6 "a6")
       (str "t1") done None None store5).1 = Some None
  ∧ t1_column Task.blocker_reason
      (ha_task_update asciiLower (update_at 6 "a6")
         (str "t1") None None None (Some done) None None None None None
         store5).1 = Some (Some (str "waiting on assets"))
  ∧ t1_column Task.blocker_reason
      (ha_task_status true (update_at 5 "a5")
         (str "t1") blocked None (Some (str "waiting on assets")) store4).1
    = Some (Some (str "waiting on assets"))
  ∧ t1_column Task.blocker_reason
      (ha_task_update asciiLower (update_at 5 "a5")
         (str "t1") None None None (Some blocked) None None None None None
         store4).1 = Some None.
Proof. by vm_compute. Qed.

Lemma update_with_status_same_timestamps_no_event_witness :
  tasks store5 !! str "t1" = Some t1_blocked
  ∧ entity_fault (update_at 6 "a6") = None
  ∧ (let by_status :=
       (ha_task_status true (update_at 6 "a6")
          (str "t1") done (Some (str "ava")) None store5).1 in
     let by_update :=
       (ha_task_update asciiLower (update_at 6 "a6")
          (str "t1") (Some (str "ava")) None None (Some done) None None None
          None None store5).1 in
     ∃ k1 k2,
       tasks by_status !! str "t1" = Some k1
       ∧ tasks by_update !! str "t1" = Some k2
       ∧ Task.status k1 = done ∧ Task.status k2 = done
       ∧ Task.started_at k2 = Task.started_at k1
       ∧ Task.completed_at k2 = Task.completed_at k1
       ∧ (done = blocked → Task.blocker_reason k2 = Task.blocker_reason t1_blocked)
       ∧ activity_log by_update = activity_log store5
       ∧ (log_fault (update_at 6 "a6") = None →
          ∃ row, activity_log by_status = activity_log store5 ++ [row]
                 ∧ ActivityLog.action row = str "task_" ++ TaskStatus_name done)).
Proof.
  split; [vm_compute; reflexivity|]. split; [reflexivity|].
  apply (update_with_status_same_timestamps_no_event asciiLower true
           (update_at 6 "a6") store5 (str "t1") t1_blocked done
           (Some (str "ava")) None (Some (str "ava")) None None None None None
           None None).
  - vm_compute; reflexivity.
  - reflexivity.
Defined.

Lemma assign_without_agent_clears_agent_witness :
  tasks store5 !! str "t1" = Some t1_blocked
  ∧ Task.assigned_agent t1_blocked = Some (str "ava")
  ∧ entity_fault (update_at 6 "a6") = None
  ∧ Task.u_assigned_agent (ha_task_assign_updateData asciiLower (str "devforge") None)
    = Some None
  ∧ ∃ k',
      tasks (ha_task_assign asciiLower true (update_at 6 "a6")
               (str "t1") (str "devforge") None store5).1 !! str "t1" = Some k'
      ∧ Task.assigned_agent k' = None
      ∧ Task.updated_by k' = Some (str "system").
Proof.
  split; [vm_compute; reflexivity|]. split; [reflexivity|].
  split; [reflexivity|].
  apply (assign_without_agent_clears_agent asciiLower true
           (update_at 6 "a6") store5 (str "t1") (str "devforge") t1_blocked).
  - vm_compute; reflexivity.
  - reflexivity.
Defined.

(** ** Activity logging *)

(** C7, the claim refuted: [ha_task_create] called with the team
    ["DevForge"] stores the task under the team ["devforge"] and logs the
    activity row of that task under the team ["DevForge"]: the row does
    not carry the team of the entity it is about. *)
Lemma created_task_logged_under_another_team :
  let run :=
    call_tool asciiLower true (env_at 6 "t2" "a6")
      (Call_task_create (str "p1") (str "Write copy") None
         (Some (str "DevForge")) None None None None None) store5 in
  ∃ k row,
    run.2 = Returned (ATask k)
    ∧ activity_log run.1 = activity_log store5 ++ [row]
    ∧ ActivityLog.related_id row = Some (Task.id k)
    ∧ ActivityLog.team row = Some (str "DevForge")
    ∧ Task.assigned_team k = Some (str "devforge")
    ∧ ActivityLog.team row ≠ Task.assigned_team k.
Proof.
  intros run. eexists _, _.
  split; [vm_compute; reflexivity|].
  split; [vm_compute; reflexivity|].
  by vm_compute.
Qed.

Lemma logged_call_appends_one_scoped_row_witness :
  let c := Call_task_status (str "t1") done (Some (str "ava")) None in
  let run := call_tool asciiLower true (update_at 6 "a6") c store5 in
  let r := returned_or (AProject None) run.2 in
  run = (run.1, Returned r)
  ∧ ∃ row, activity_log run.1 = activity_log store5 ++ [row]
           ∧ logged_for asciiLower c r run.1 row.
Proof.
  intros c run r.
  assert (Hrun : run = (run.1, Returned r)) by (vm_compute; reflexivity).
  split; [exact Hrun|].
  exact (logged_call_appends_one_scoped_row asciiLower true
           (update_at 6 "a6") c store5 run.1 r Hrun).
Defined.

(** The environment of a call whose activity insert is refused. *)
Definition env_log_refused : Env :=
  mkEnv 6 [] (str "a6") None (Some statement_timeout).

Lemma failed_log_fails_call_keeps_entity_witness :
  let c := Call_task_status (str "t1") done (Some (str "ava")) None in
  let st' := (call_tool asciiLower true env_log_refused c store5).1 in
  entity_write_ok env_log_refused c store5
  ∧ log_fault env_log_refused = Some statement_timeout
  ∧ (call_tool asciiLower true env_log_refused c store5).2
    = Threw (thrown_by_handleError true statement_timeout)
  ∧ activity_log st' = activity_log store5
  ∧ entity_kept asciiLower env_log_refused c store5 st'
  ∧ projects st' =
    projects (call_tool asciiLower true (without_log_fault env_log_refused) c store5).1
  ∧ tasks st' =
    tasks (call_tool asciiLower true (without_log_fault env_log_refused) c store5).1.
Proof.
  intros c st'.
  assert (Hok : entity_write_ok env_log_refused c store5).
  { split; [reflexivity|]. exists t1_blocked. vm_compute; reflexivity. }
  split; [exact Hok|]. split; [reflexivity|].
  exact (failed_log_fails_call_keeps_entity asciiLower true env_log_refused c
           store5 statement_timeout Hok eq_refl).
Defined.

Example failed_log_leaves_task_done :
  t1_column Task.status
    (call_tool asciiLower true env_log_refused
       (Call_task_status (str "t1") done (Some (str "ava")) None) store5).1
  = Some done
  ∧ length (activity_log
              (call_tool asciiLower true env_log_refused
                 (Call_task_status (str "t1") done (Some (str "ava")) None)
                 store5).1) = 5.
Proof. by vm_compute. Qed.

(** ** Task lists *)

(** The scenario's task (medium) with a critical and a low one, all
    assigned to ava in the team pixelcraft. *)
Definition store_three_tasks : Store :=
  (ha_task_create asciiLower true (env_at 8 "t3" "a8")
     (str "p1") (str "Ship it") None (Some (str "pixelcraft")) (Some (str "ava"))
     (Some critical) None None None
     (ha_task_create asciiLower true (env_at 7 "t2" "a7")
        (str "p1") (str "Polish") None (Some (str "pixelcraft")) (Some (str "ava"))
        (Some low) None None None store5).1).1.

Example my_tasks_in_enum_order :
  Task.id <$> returned_or []
    (ha_task_my_tasks asciiLower enum_rank (update_at 9 "a9")
       (str "Ava") None store_three_tasks).2
  = [str "t3"; str "t1"; str "t2"].
Proof. by vm_compute. Qed.

Lemma task_lists_sorted_by_priority_then_recency_witness :
  entity_fault (update_at 9 "a9") = None
  ∧ ∃ mine theirs,
      ha_task_my_tasks asciiLower enum_rank (update_at 9 "a9")
        (str "Ava") None store_three_tasks = (store_three_tasks, Returned mine)
      ∧ ha_task_team_tasks asciiLower enum_rank (update_at 9 "a9")
          (str "PixelCraft") None store_three_tasks
        = (store_three_tasks, Returned theirs)
      ∧ StronglySorted by_priority_then_recency mine
      ∧ StronglySorted by_priority_then_recency theirs
      ∧ mine ≡ₚ List.filter (my_tasks_where asciiLower (str "Ava") None)
                  (map_to_list (tasks store_three_tasks)).*2
      ∧ theirs ≡ₚ List.filter
                    (team_tasks_where asciiLower (str "PixelCraft") None)
                    (map_to_list (tasks store_three_tasks)).*2.
Proof.
  split; [reflexivity|].
  apply (task_lists_sorted_by_priority_then_recency asciiLower
           (update_at 9 "a9") store_three_tasks (str "Ava") (str "PixelCraft")
           None).
  reflexivity.
Defined.

(** A second medium task, created after the scenario's one and left
    without an agent. *)
Definition store_four_tasks : Store :=
  (ha_task_create asciiLower true (env_at 9 "t4" "a9")
     (str "p1") (str "Review copy") None (Some (str "pixelcraft")) None
     (Some medium) None None None store_three_tasks).1.

Example team_tasks_in_enum_order :
  (λ k, (Task.id k, Task.priority k, Task.created_at k)) <$> returned_or []
    (ha_task_team_tasks asciiLower enum_rank (update_at 10 "a10")
       (str "PixelCraft") None store_four_tasks).2
  = [(str "t3", critical, 8%Z); (str "t4", medium, 9%Z);
     (str "t1", medium, 2%Z); (str "t2", low, 7%Z)]
  ∧ Task.id <$> returned_or []
      (ha_task_my_tasks asciiLower enum_rank (update_at 10 "a10")
         (str "Ava") None store_four_tasks).2
    = [str "t3"; str "t1"; str "t2"].
Proof. by vm_compute. Qed.

(** The order of the result is the store's order on the priority column.
    Were the column compared as text, [low] would sort before [medium]. *)
Definition text_rank (p : PriorityLevel) : nat :=
  match p with critical => 0 | high => 1 | low => 2 | medium => 3 end.

Example my_tasks_in_text_order :
  Task.priority <$> returned_or []
    (ha_task_my_tasks asciiLower text_rank (update_at 9 "a9")
       (str "Ava") None store_three_tasks).2
  = [critical; low; medium].
Proof. by vm_compute. Qed.

(** * The further properties at concrete inputs *)

Lemma projects_store5 : projects store5 = {[ str "p1" := acme ]}.
Proof. by vm_compute. Qed.

Lemma tasks_store5 : tasks store5 = {[ str "t1" := t1_blocked ]}.
Proof. by vm_compute. Qed.

Lemma asciiLower_idempotent s : asciiLower (asciiLower s) = asciiLower s.
Proof.
  unfold asciiLower. rewrite <- list_fmap_compose. apply list_fmap_ext.
  intros _ c _. simpl. unfold lower_unit.
  destruct ((65 <=? c)%N && (c <=? 90)%N) eqn:Hc; [|by rewrite Hc].
  apply andb_true_iff in Hc as [H1 H2]. apply N.leb_le in H1, H2.
  destruct ((65 <=? c + 32)%N && (c + 32 <=? 90)%N) eqn:Hc'; [|done].
  apply andb_true_iff in Hc' as [H3 H4]. apply N.leb_le in H3, H4. lia.
Qed.

(** ** [ha_project_get] *)

(** A project stored under an id of the shape of a UUID. *)
Definition uuid1 : jsstring := str "123e4567-e89b-12d3-a456-426614174000".

Definition store_uuid : Store :=
  (ha_project_create asciiLower true
     (mkEnv 1 uuid1 (str "a1") None None)
     (str "Acme Launch") None None None store0).1.

Lemma ha_project_get_uuid_shaped_by_id_only_witness :
  isUuid uuid1 = true
  ∧ ha_project_get (update_at 2 "a2") uuid1 store_uuid =
    (store_uuid,
     match projects store_uuid !! uuid1 with
     | Some p => Returned (Some p)
     | None => Threw (Error_ (str "Project not found: " ++ message no_rows))
     end).
Proof.
  split; [vm_compute; reflexivity|].
  apply (ha_project_get_uuid_shaped_by_id_only (update_at 2 "a2") uuid1 store_uuid).
  - reflexivity.
  - vm_compute; reflexivity.
Defined.

Lemma ha_project_get_by_unique_slug_witness :
  ha_project_get (update_at 6 "a6") (str "acme-launch") store5
  = (store5, Returned (Some acme)).
Proof.
  apply (ha_project_get_by_unique_slug (update_at 6 "a6") (str "acme-launch")
           store5 (str "p1") acme).
  - reflexivity.
  - vm_compute; reflexivity.
  - vm_compute; reflexivity.
  - reflexivity.
  - intros id' q. rewrite projects_store5. intros Hq _.
    apply lookup_singleton_Some in Hq as [<- _]. reflexivity.
Defined.

(** Two projects whose names have the same slug. *)
Definition store_twins : Store :=
  (ha_project_create asciiLower true (env_at 2 "p2" "a2")
     (str "acme   LAUNCH!") None None None store1).1.

Lemma ha_project_get_slug_absent_or_shared_witness :
  ha_project_get (update_at 3 "a3") (str "acme-launch") store_twins
  = (store_twins,
     Threw (Error_ (str "Project not found: " ++ message no_rows))).
Proof.
  apply (ha_project_get_slug_absent_or_shared (update_at 3 "a3")
           (str "acme-launch") store_twins).
  - reflexivity.
  - vm_compute; reflexivity.
  - right. exists (str "p1"), (str "p2"). eexists _, _.
    split; [intros H; vm_compute in H; discriminate|].
    split; [vm_compute; reflexivity|].
    split; [vm_compute; reflexivity|].
    split; vm_compute; reflexivity.
Defined.

Lemma created_project_found_by_slug_witness :
  ha_project_get (update_at 2 "a2") (generateSlug asciiLower (str "Acme Launch"))
    store1
  = (store1, Returned (Some acme)).
Proof.
  apply (created_project_found_by_slug asciiLower true (env_at 1 "p1" "a1")
           (update_at 2 "a2") (str "Acme Launch") None None None store0 store1
           acme).
  - vm_compute; reflexivity.
  - reflexivity.
  - vm_compute; reflexivity.
  - intros id q. simpl. rewrite lookup_empty. discriminate.
Defined.

(** ** Invariants of the store *)

Lemma slug_follows_name_invariant_witness :
  slugs_derived asciiLower store5
  ∧ slugs_derived asciiLower
      (call_tool asciiLower true (update_at 6 "a6")
         (Call_project_update (str "p1") (Some (str "Acme Relaunch")) None
            None None) store5).1.
Proof.
  assert (H5 : slugs_derived asciiLower store5).
  { intros id p. rewrite projects_store5. intros Hp.
    apply lookup_singleton_Some in Hp as [_ <-]. vm_compute; reflexivity. }
  split; [exact H5|].
  exact (slug_follows_name_invariant asciiLower true (update_at 6 "a6")
           (Call_project_update (str "p1") (Some (str "Acme Relaunch")) None
              None None) store5 H5).
Defined.

Example renamed_project_slug :
  Project.slug <$>
    projects (call_tool asciiLower true (update_at 6 "a6")
                (Call_project_update (str "p1") (Some (str "Acme Relaunch"))
                   None None None) store5).1 !! str "p1"
  = Some (str "acme-relaunch").
Proof. by vm_compute. Qed.

Lemma assignees_lower_case_invariant_witness :
  assignees_lower_case asciiLower store5
  ∧ assignees_lower_case asciiLower
      (call_tool asciiLower true (update_at 6 "a6")
         (Call_task_assign (str "t1") (str "DevForge") (Some (str "Max")))
         store5).1
  ∧ assignees_lower_case asciiLower
      (ha_task_update asciiLower (update_at 6 "a6") (str "t1") None None None
         None None (Some (str "DevForge")) (Some (str "Max")) None None
         store5).1.
Proof.
  assert (H5 : assignees_lower_case asciiLower store5).
  { intros id k. rewrite tasks_store5. intros Hk.
    apply lookup_singleton_Some in Hk as [_ <-].
    split; intros x [= <-]; vm_compute; reflexivity. }
  split; [exact H5|].
  exact (assignees_lower_case_invariant asciiLower true (update_at 6 "a6")
           (Call_task_assign (str "t1") (str "DevForge") (Some (str "Max")))
           store5 (str "t1") None None None None None (Some (str "DevForge"))
           (Some (str "Max")) None None asciiLower_idempotent H5).
Defined.

(** ** Task writes *)

Lemma task_updates_touch_one_row_witness :
  let st := store_three_tasks in
  let st1 := (ha_task_status true (update_at 9 "a9") (str "t1") done None None
                st).1 in
  let st2 := (ha_task_assign asciiLower true (update_at 9 "a9") (str "t1")
                (str "devforge") None st).1 in
  let st3 := (ha_task_update asciiLower (update_at 9 "a9") (str "t1") None None
                None (Some done) None None None None None st).1 in
  (tasks st1 !! str "t2" = tasks st !! str "t2" ∧ projects st1 = projects st)
  ∧ (tasks st2 !! str "t2" = tasks st !! str "t2" ∧ projects st2 = projects st)
  ∧ (tasks st3 !! str "t2" = tasks st !! str "t2" ∧ projects st3 = projects st).
Proof.
  apply (task_updates_touch_one_row asciiLower true (update_at 9 "a9")
           store_three_tasks (str "t1") (str "t2") done None None
           (str "devforge") None None None None (Some done) None None None
           None None).
  intros H. vm_compute in H. discriminate.
Defined.

Lemma blocked_reason_from_notes_or_kept_witness :
  Task.blocker_reason <$>
    tasks (ha_task_status true (update_at 6 "a6") (str "t1") blocked None
             (Some []) store5).1 !! str "t1"
  = Some match Some ([] : jsstring) with
         | Some n => if truthy n then Some n else Task.blocker_reason t1_blocked
         | None => Task.blocker_reason t1_blocked
         end.
Proof.
  apply (blocked_reason_from_notes_or_kept true (update_at 6 "a6") store5
           (str "t1") t1_blocked None (Some [])).
  - vm_compute; reflexivity.
  - reflexivity.
Defined.

Lemma refused_entity_write_changes_nothing_witness :
  call_tool asciiLower true (update_at 6 "a6")
    (Call_task_status (str "t9") done None None) store5
  = (store5,
     Threw (Error_ (failure_prefix (Call_task_status (str "t9") done None None)
                      ++ message no_rows))).
Proof.
  apply (refused_entity_write_changes_nothing asciiLower true (update_at 6 "a6")
           (Call_task_status (str "t9") done None None) store5 no_rows).
  vm_compute; reflexivity.
Defined.

(** ** Listings *)

Lemma ha_task_list_newest_matching_witness :
  ∃ l rest,
    ha_task_list asciiLower (update_at 9 "a9") (Some (str "p1")) None
      (Some (str "PixelCraft")) None None (Some 2) store_three_tasks
    = (store_three_tasks, Returned l)
    ∧ (∀ k, k ∈ l ++ rest
            ↔ k ∈ task_rows store_three_tasks
              ∧ task_listed asciiLower (Some (str "p1")) None
                  (Some (str "PixelCraft")) None None k)
    ∧ length (l ++ rest)
      = length (List.filter
                  (task_list_where asciiLower (Some (str "p1")) None
                     (Some (str "PixelCraft")) None None)
                  (task_rows store_three_tasks))
    ∧ StronglySorted newest_task_first (l ++ rest)
    ∧ length l = (Some 2 ?? 50) `min` length (l ++ rest).
Proof.
  apply (ha_task_list_newest_matching asciiLower (update_at 9 "a9")
           (Some (str "p1")) None (Some (str "PixelCraft")) None None (Some 2)
           store_three_tasks).
  reflexivity.
Defined.

Example task_list_first_two :
  Task.id <$> returned_or []
    (ha_task_list asciiLower (update_at 9 "a9") (Some (str "p1")) None
       (Some (str "PixelCraft")) None None (Some 2) store_three_tasks).2
  = [str "t3"; str "t2"].
Proof. by vm_compute. Qed.

Lemma ha_project_list_recent_matching_witness :
  ∃ l rest,
    ha_project_list (update_at 3 "a3") (Some planning) None store_twins
    = (store_twins, Returned l)
    ∧ (∀ p, p ∈ l ++ rest
            ↔ p ∈ project_rows store_twins
              ∧ ∀ v, Some planning = Some v → Project.status p = v)
    ∧ length (l ++ rest)
      = length (List.filter (project_list_where (Some planning))
                  (project_rows store_twins))
    ∧ StronglySorted recently_updated_first (l ++ rest)
    ∧ length l = (None ?? 20) `min` length (l ++ rest).
Proof.
  apply (ha_project_list_recent_matching (update_at 3 "a3") (Some planning)
           None store_twins).
  reflexivity.
Defined.

Lemma ha_activity_get_newest_matching_witness :
  ∃ l rest,
    ha_activity_get (update_at 6 "a6") (Some (str "p1")) None None None
      (Some 3) store5
    = (store5, Returned l)
    ∧ (∀ a, a ∈ l ++ rest
            ↔ a ∈ activity_log store5
              ∧ activity_listed (Some (str "p1")) None None None a)
    ∧ length (l ++ rest)
      = length (List.filter
                  (activity_get_where (Some (str "p1")) None None None)
                  (activity_log store5))
    ∧ StronglySorted newest_first (l ++ rest)
    ∧ length l = (Some 3 ?? 50) `min` length (l ++ rest).
Proof.
  apply (ha_activity_get_newest_matching (update_at 6 "a6") (Some (str "p1"))
           None None None (Some 3) store5).
  reflexivity.
Defined.

Example activity_get_newest_three :
  ActivityLog.action <$> returned_or []
    (ha_activity_get (update_at 6 "a6") (Some (str "p1")) None None None
       (Some 3) store5).2
  = [str "task_blocked"; str "task_in_progress"; str "task_assigned"].
Proof. by vm_compute. Qed.

Lemma my_and_team_tasks_members_witness :
  ∃ mine theirs,
    ha_task_my_tasks asciiLower enum_rank (update_at 9 "a9") (str "Ava") None
      store_three_tasks = (store_three_tasks, Returned mine)
    ∧ ha_task_team_tasks asciiLower enum_rank (update_at 9 "a9") (str "Ava")
        None store_three_tasks = (store_three_tasks, Returned theirs)
    ∧ (∀ k, k ∈ mine
            ↔ k ∈ task_rows store_three_tasks
              ∧ Task.assigned_agent k = Some (asciiLower (str "Ava"))
              ∧ (None = Some true ∨ Task.status k ≠ done))
    ∧ (∀ k, k ∈ theirs
            ↔ k ∈ task_rows store_three_tasks
              ∧ Task.assigned_team k = Some (asciiLower (str "Ava"))
              ∧ (None = Some true ∨ Task.status k ≠ done)).
Proof.
  apply (my_and_team_tasks_members asciiLower enum_rank (update_at 9 "a9")
           (str "Ava") None store_three_tasks).
  reflexivity.
Defined.

Lemma assigned_task_listed_for_team_and_agent_witness :
  let run :=
    ha_task_assign asciiLower true (update_at 6 "a6") (str "t1")
      (str "DevForge") (Some (str "Max")) store5 in
  let k := returned_or t1_blocked run.2 in
  run = (run.1, Returned k)
  ∧ ∃ mine theirs,
      ha_task_my_tasks asciiLower enum_rank (update_at 7 "a7") (str "MAX") None
        run.1 = (run.1, Returned mine)
      ∧ ha_task_team_tasks asciiLower enum_rank (update_at 7 "a7")
          (str "DEVFORGE") None run.1 = (run.1, Returned theirs)
      ∧ k ∈ mine ∧ k ∈ theirs.
Proof.
  intros run k.
  assert (Hrun : run = (run.1, Returned k)) by (vm_compute; reflexivity).
  split; [exact Hrun|].
  apply (assigned_task_listed_for_team_and_agent asciiLower true enum_rank
           (update_at 6 "a6") (update_at 7 "a7") (str "t1") (str "DevForge")
           (str "Max") (str "DEVFORGE") (str "MAX") None store5 run.1 k Hrun).
  - reflexivity.
  - vm_compute; reflexivity.
  - vm_compute; reflexivity.
Defined.

Lemma find_tasks_leave_out_backlog_witness :
  ∃ by_agent by_team mine theirs,
    findTasksByAgent asciiLower true (update_at 9 "a9") (str "Ava")
      store_three_tasks = (store_three_tasks, Returned by_agent)
    ∧ findTasksByTeam asciiLower true (update_at 9 "a9") (str "Ava")
        store_three_tasks = (store_three_tasks, Returned by_team)
    ∧ ha_task_my_tasks asciiLower enum_rank (update_at 9 "a9") (str "Ava") None
        store_three_tasks = (store_three_tasks, Returned mine)
    ∧ ha_task_team_tasks asciiLower enum_rank (update_at 9 "a9") (str "Ava")
        None store_three_tasks = (store_three_tasks, Returned theirs)
    ∧ by_agent ≡ₚ List.filter
                    (λ k, bool_decide (Task.status k ≠ backlog)) mine
    ∧ by_team ≡ₚ List.filter
                   (λ k, bool_decide (Task.status k ≠ backlog)) theirs.
Proof.
  apply (find_tasks_leave_out_backlog asciiLower true enum_rank
           (update_at 9 "a9") (str "Ava") store_three_tasks).
  reflexivity.
Defined.

Example find_tasks_by_agent_skips_backlog :
  Task.id <$> returned_or []
    (findTasksByAgent asciiLower true (update_at 9 "a9") (str "Ava")
       store_three_tasks).2 = [str "t1"]
  ∧ length (returned_or []
      (ha_task_my_tasks asciiLower enum_rank (update_at 9 "a9") (str "Ava") None
         store_three_tasks).2) = 3.
Proof. by vm_compute. Qed.

(** ** The activity tools *)

Lemma logged_activity_is_listed_witness :
  let env := update_at 6 "a6" in
  let row := activity_row env (str "ava") (str "note") (None ?? object [])
               (mkLogOptions (Some (str "p1")) None None None) in
  let st' := (ha_activity_log true env (str "ava") (str "note") None
                (Some (str "p1")) None store5).1 in
  activity_log st' = activity_log store5 ++ [row]
  ∧ projects st' = projects store5
  ∧ tasks st' = tasks store5
  ∧ ActivityLog.related_id row = None
  ∧ ∃ l, ha_activity_get (update_at 7 "a7") None (Some (str "ava")) None None
           None st' = (st', Returned l)
         ∧ row ∈ l.
Proof.
  apply (logged_activity_is_listed true (update_at 6 "a6") (update_at 7 "a7")
           (str "ava") (str "note") None (Some (str "p1")) None None store5).
  - reflexivity.
  - reflexivity.
  - intros H. vm_compute in H. discriminate.
  - vm_compute. lia.
Defined.

(** ** The dashboard's counts *)

Lemma project_of_three_tasks :
  projects store_three_tasks !! str "p1" = Some acme.
Proof. by vm_compute. Qed.

Lemma dashboard_by_status_counts_witness :
  ∃ d,
    (ha_status_project None None None (str "p1") store_three_tasks).2
    = Returned d
    ∧ total d = length (project_tasks (str "p1") store_three_tasks)
    ∧ ∀ s, by_status d !! TaskStatus_name s =
           CNum <$>
           count_entry
             (length (List.filter (λ k, bool_decide (Task.status k = s))
                        (project_tasks (str "p1") store_three_tasks))).
Proof.
  apply (dashboard_by_status_counts None (str "p1") store_three_tasks acme).
  vm_compute; reflexivity.
Defined.

Lemma dashboard_counts_add_up_witness :
  plain_team_names (project_tasks (str "p1") store_three_tasks)
  ∧ ∃ d,
      (ha_status_project None None None (str "p1") store_three_tasks).2
      = Returned d
      ∧ sum_counts (by_status d) = Some (total d)
      ∧ (plain_team_names (project_tasks (str "p1") store_three_tasks) →
         ∃ n, sum_counts (by_team d) = Some n
              ∧ n = length (List.filter
                              (λ k, match Task.assigned_team k with
                                    | Some team => truthy team
                                    | None => false
                                    end)
                              (project_tasks (str "p1") store_three_tasks))
              ∧ n ≤ total d).
Proof.
  split; [vm_compute; repeat constructor|].
  apply (dashboard_counts_add_up None (str "p1") store_three_tasks acme).
  vm_compute; reflexivity.
Defined.

Lemma dashboard_by_team_counts_witness :
  ∃ d,
    (ha_status_project None None None (str "p1") store_three_tasks).2
    = Returned d
    ∧ by_team d !! [] = None
    ∧ by_team d !! str "__proto__" = None
    ∧ (∀ team, team ≠ [] → Object_prototype team = None →
         by_team d !! team =
         CNum <$>
         count_entry
           (length (List.filter
                      (λ k, bool_decide (Task.assigned_team k = Some team))
                      (project_tasks (str "p1") store_three_tasks))))
    ∧ (∀ team inherited,
         team ≠ str "__proto__" → Object_prototype team = Some inherited →
         by_team d !! team =
         text_entry inherited
           (length (List.filter
                      (λ k, bool_decide (Task.assigned_team k = Some team))
                      (project_tasks (str "p1") store_three_tasks)))).
Proof.
  apply (dashboard_by_team_counts None (str "p1") store_three_tasks acme).
  vm_compute; reflexivity.
Defined.

Lemma dashboard_recent_activity_witness :
  ∃ d rest,
    (ha_status_project None None None (str "p1") store_three_tasks).2
    = Returned d
    ∧ (∀ a, a ∈ recent_activity d ++ rest
            ↔ a ∈ activity_log store_three_tasks
              ∧ ActivityLog.project_id a = Some (str "p1"))
    ∧ StronglySorted newest_first (recent_activity d ++ rest)
    ∧ length (recent_activity d)
      = 10 `min` length (recent_activity d ++ rest).
Proof.
  apply (dashboard_recent_activity None (str "p1") store_three_tasks acme).
  vm_compute; reflexivity.
Defined.

Example dashboard_of_three_tasks :
  let d := returned_or no_dashboard
             (ha_status_project None None None (str "p1") store_three_tasks).2 in
  total d = 3
  ∧ by_status d !! str "blocked" = Some (CNum 1)
  ∧ by_status d !! str "backlog" = Some (CNum 2)
  ∧ by_status d !! str "done" = None
  ∧ by_team d !! str "pixelcraft" = Some (CNum 3)
  ∧ length (recent_activity d) = 7.
Proof. by vm_compute. Qed.

(** Two more tasks of the scenario's project, given through
    [ha_task_create] to teams named [constructor] and [__proto__]. *)
Definition store_inherited_names : Store :=
  (ha_task_create asciiLower true (env_at 8 "t3" "a8")
     (str "p1") (str "Ship it") None (Some (str "__proto__")) None
     None None None None
     (ha_task_create asciiLower true (env_at 7 "t2" "a7")
        (str "p1") (str "Polish") None (Some (str "constructor")) None
        None None None None store5).1).1.

Example dashboard_of_inherited_names :
  let d := returned_or no_dashboard
             (ha_status_project None None None (str "p1")
                store_inherited_names).2 in
  total d = 3
  ∧ sum_counts (by_status d) = Some 3
  ∧ by_team d !! str "pixelcraft" = Some (CNum 1)
  ∧ by_team d !! str "constructor"
    = Some (CStr (str "function Object() { [native code] }1"))
  ∧ by_team d !! str "__proto__" = None
  ∧ sum_counts (by_team d) = None.
Proof. by vm_compute. Qed.
